(** * A whisper.cpp transcription service (app.py), embedded in Rocq

    The service is a FastAPI application with a health route and a
    transcribe route.  The transcribe handler stores the upload in a
    temporary file, runs an external speech-to-text binary under one of
    several candidate names, removes the temporary file, and turns the
    binary's output files into a JSON response.

    The embedding is shallow.  Python text is a [string] whose characters
    are code points below 256; the file store is a finite map from paths
    to directories and regular files, a regular file holding either text
    or bytes that do not decode; the operating system, the network and
    the installed binaries are oracles gathered in a record; handlers
    thread an explicit machine state and return either a value or the
    exception they raise.  Paths follow posixpath and are told apart as
    strings; [tempfile] is taken to find a free name at its first draw.
    What the program prints is not modelled. *)

From Stdlib Require Import ZArith List String Ascii Lia DecimalString.
From stdpp Require Import gmap strings list.

Local Open Scope string_scope.
Local Open Scope list_scope.
Local Open Scope Z_scope.

(** ** Python text operations *)

Module Text.

Definition code (c : ascii) : N := N_of_ascii c.

(** [str.isspace] on one character (code points below 256). *)
Definition isspace (c : ascii) : bool :=
  let n := code c in
  ((9 <=? n) && (n <=? 13) || (28 <=? n) && (n <=? 32)
   || (n =? 133) || (n =? 160))%N.

(** [str.lower] on one character (code points below 256). *)
Definition lower_char (c : ascii) : ascii :=
  let n := code c in
  if ((65 <=? n) && (n <=? 90)
      || (192 <=? n) && (n <=? 222) && negb (n =? 215))%N
  then ascii_of_N (n + 32) else c.

Fixpoint lower (s : string) : string :=
  match s with
  | EmptyString => EmptyString
  | String c r => String (lower_char c) (lower r)
  end.

Fixpoint lstrip (s : string) : string :=
  match s with
  | EmptyString => EmptyString
  | String c r => if isspace c then lstrip r else s
  end.

Fixpoint rstrip (s : string) : string :=
  match s with
  | EmptyString => EmptyString
  | String c r =>
      match rstrip r with
      | EmptyString => if isspace c then EmptyString else String c EmptyString
      | r' => String c r'
      end
  end.

(** [s.strip()] *)
Definition strip (s : string) : string := lstrip (rstrip s).

(** [needle in hay] *)
Fixpoint contains (needle hay : string) : bool :=
  String.prefix needle hay ||
  match hay with
  | EmptyString => false
  | String _ r => contains needle r
  end.

(** [s[:n]] and [s[n:]] for [0 <= n]. *)
Fixpoint take (n : nat) (s : string) : string :=
  match n, s with
  | S k, String c r => String c (take k r)
  | _, _ => EmptyString
  end.

Fixpoint drop (n : nat) (s : string) : string :=
  match n, s with
  | S k, String _ r => drop k r
  | _, _ => s
  end.

Definition len (s : string) : Z := Z.of_nat (String.length s).

(** [s[:i]] and [s[i:]] for an index that may be negative, as Python
    resolves it: a negative index counts from the end and is clamped. *)
Definition clamp (i : Z) (s : string) : nat :=
  Z.to_nat (Z.min (len s) (if i <? 0 then Z.max 0 (len s + i) else i)).

Definition slice_to (i : Z) (s : string) : string := take (clamp i s) s.
Definition slice_from (i : Z) (s : string) : string := drop (clamp i s) s.

(** [s.rfind(c)] for a one-character [c]: the highest index, or -1. *)
Fixpoint rfind_from (c : ascii) (s : string) (i acc : Z) : Z :=
  match s with
  | EmptyString => acc
  | String a r => rfind_from c r (i + 1) (if Ascii.eqb a c then i else acc)
  end.

Definition rfind (c : ascii) (s : string) : Z := rfind_from c s 0 (-1).

(** [s[i:i+1]] compared with a one-character string. *)
Definition char_at_is (s : string) (i : Z) (c : ascii) : bool :=
  match String.get (Z.to_nat i) s with
  | Some a => (0 <=? i) && Ascii.eqb a c
  | None => false
  end.

(** [sep.join(parts)] *)
Fixpoint join_with (sep : string) (parts : list string) : string :=
  match parts with
  | [] => EmptyString
  | [p] => p
  | p :: rest => p +:+ sep +:+ join_with sep rest
  end.

(** [str(n)] for an integer. *)
Definition of_int (n : Z) : string := NilZero.string_of_int (Z.to_int n).

(** Two lower-case hexadecimal digits, as in a [\xNN] escape. *)
Definition hex_digit (n : N) : ascii :=
  if (n <? 10)%N then ascii_of_N (48 + n) else ascii_of_N (87 + n).

Definition hex2 (n : N) : string :=
  String (hex_digit (n / 16)) (String (hex_digit (n mod 16)) EmptyString).

Definition squote : ascii := "'"%char.
Definition dquote : ascii := ascii_of_N 34.
Definition backslash : ascii := "\"%char.

Fixpoint has_char (c : ascii) (s : string) : bool :=
  match s with
  | EmptyString => false
  | String a r => Ascii.eqb a c || has_char c r
  end.

(** [str.isprintable] on one character (code points below 256). *)
Definition isprintable (c : ascii) : bool :=
  let n := code c in
  ((32 <=? n) && (n <? 127) || (161 <=? n) && negb (n =? 173))%N.

Definition repr_char (quote c : ascii) : string :=
  let n := code c in
  if Ascii.eqb c quote || Ascii.eqb c backslash
  then String backslash (String c EmptyString)
  else if (n =? 9)%N then String backslash "t"
  else if (n =? 10)%N then String backslash "n"
  else if (n =? 13)%N then String backslash "r"
  else if isprintable c then String c EmptyString
  else String backslash (String "x"%char (hex2 n)).

Fixpoint repr_body (quote : ascii) (s : string) : string :=
  match s with
  | EmptyString => EmptyString
  | String c r => repr_char quote c +:+ repr_body quote r
  end.

(** [repr(s)] of a [str]. *)
Definition repr (s : string) : string :=
  let quote := if has_char squote s && negb (has_char dquote s)
               then dquote else squote in
  String quote (repr_body quote s +:+ String quote EmptyString).

(** [str(l)] of a list of [str]. *)
Definition repr_list (l : list string) : string :=
  "[" +:+ join_with ", " (map repr l) +:+ "]".

End Text.

(** ** posixpath *)

Module posixpath.

Definition sep : ascii := "/"%char.
Definition extsep : ascii := "."%char.

Definition startswith_sep (s : string) : bool :=
  match s with String c _ => Ascii.eqb c sep | EmptyString => false end.

Fixpoint endswith_sep (s : string) : bool :=
  match s with
  | EmptyString => false
  | String c EmptyString => Ascii.eqb c sep
  | String _ r => endswith_sep r
  end.

(** [os.path.join(a, b)] *)
Definition join (a b : string) : string :=
  if startswith_sep b then b
  else if (String.eqb a EmptyString || endswith_sep a)%bool then a +:+ b
  else a +:+ String sep b.

(** The [while] loop of [genericpath._splitext], which skips the leading
    dots of the last component: [true] when a character other than the
    dot is met before [dotIndex], that is when the split is made. *)
Fixpoint skip_leading_dots (p : string) (steps : nat) (filenameIndex : Z)
  : bool :=
  match steps with
  | O => false
  | S k =>
      if negb (Text.char_at_is p filenameIndex extsep) then true
      else skip_leading_dots p k (filenameIndex + 1)
  end.

(** [os.path.splitext(p)] *)
Definition splitext (p : string) : string * string :=
  let sepIndex := Text.rfind sep p in
  let dotIndex := Text.rfind extsep p in
  if (sepIndex <? dotIndex)
     && skip_leading_dots p (Z.to_nat (dotIndex - (sepIndex + 1)))
          (sepIndex + 1)
  then (Text.slice_to dotIndex p, Text.slice_from dotIndex p)
  else (p, EmptyString).

End posixpath.

(** ** JSON values, which are also the Python values the handlers build *)

Local Set Warnings "-register-all".

(** A Python [float]: a finite number, carried by its literal, or one of
    the three values [json.load] also accepts and produces (a literal
    such as [1e999] decodes to infinity). *)
Inductive pyfloat : Type :=
| Finite (literal : string)
| PosInf
| NegInf
| NaN.

(** A [JObj] lists the items of a [dict] in insertion order, each key
    once. *)
Inductive json : Type :=
| JNull
| JBool (b : bool)
| JInt (n : Z)
| JFloat (x : pyfloat)
| JStr (s : string)
| JArr (items : list json)
| JObj (fields : list (string * json)).

(** Exceptions the program raises or lets through. *)
Inductive exn : Type :=
| FileNotFoundError (msg : string)
| ValueError (msg : string)
| URLError
| ConnectionError
| JSONDecodeError
| UnicodeDecodeError
| AttributeError
| TypeError
| IsADirectoryError
| NotADirectoryError
| FileExistsError
| PermissionError
| OSError.

Inductive result (A : Type) : Type :=
| Ok (a : A)
| Raise (e : exn).

Arguments Ok {A} a.
Arguments Raise {A} e.

(** Sequencing that stops at the first exception; [x ← r; k] is stdpp's
    notation for it. *)
#[global] Instance result_bind : MBind result := fun A B k r =>
  match r with
  | Ok a => k a
  | Raise e => Raise e
  end.

#[global] Instance result_ret : MRet result := fun A a => Ok a.

Module Py.

(** Lookup in a [dict] kept as its items in insertion order. *)
Fixpoint items_get (key : string) (fields : list (string * json))
  : option json :=
  match fields with
  | [] => None
  | (k, v) :: rest => if String.eqb k key then Some v else items_get key rest
  end.

(** [d.get(key, default)]; a value that is not a [dict] has no [get]. *)
Definition get (d : json) (key : string) (default : json) : result json :=
  match d with
  | JObj fields =>
      Ok (match items_get key fields with Some v => v | None => default end)
  | _ => Raise AttributeError
  end.

(** [v.strip()]; only a [str] has [strip]. *)
Definition strip (v : json) : result json :=
  match v with
  | JStr s => Ok (JStr (Text.strip s))
  | _ => Raise AttributeError
  end.

Fixpoint chars (s : string) : list json :=
  match s with
  | EmptyString => []
  | String c r => JStr (String c EmptyString) :: chars r
  end.

(** The items a [for] loop draws from a value. *)
Definition iter (v : json) : result (list json) :=
  match v with
  | JArr items => Ok items
  | JStr s => Ok (chars s)
  | JObj fields => Ok (map (fun kv => JStr (fst kv)) fields)
  | _ => Raise TypeError
  end.

(** A list comprehension whose element expression may raise. *)
Fixpoint comprehension (f : json -> result json) (l : list json)
  : result (list json) :=
  match l with
  | [] => Ok []
  | x :: rest =>
      y ← f x;
      ys ← comprehension f rest;
      Ok (y :: ys)
  end.

(** What [json.dumps(v, allow_nan=False)] accepts: no float that is not
    finite, at any depth. *)
Fixpoint compliant (v : json) : bool :=
  match v with
  | JFloat (Finite _) => true
  | JFloat _ => false
  | JArr items => forallb compliant items
  | JObj fields => forallb (fun kv => compliant (snd kv)) fields
  | _ => true
  end.

End Py.

(** ** The machine: file store, logs of external calls, and oracles *)

(** What a regular file holds, read with [encoding="utf-8"]: text, or
    bytes that do not decode. *)
Inductive filedata : Type :=
| Utf8 (text : string)
| Binary (bytes : string).

Inductive node : Type :=
| Dir
| File (data : filedata).

(** What a finished subprocess reports ([subprocess.CompletedProcess]). *)
Record completed : Type := Completed {
  returncode : Z;
  stdout : string;
  stderr : string;
}.

(** The exceptions of [subprocess.run] other than [FileNotFoundError]:
    the file is there but may not be executed, an argument holds a NUL,
    the output does not decode as text, and any other failure of the
    operating system. *)
Inductive run_error : Type :=
| PermissionDenied
| EmbeddedNul
| OutputUndecodable
| OtherFailure.

Definition run_error_exn (e : run_error) : exn :=
  match e with
  | PermissionDenied => PermissionError
  | EmbeddedNul => ValueError "embedded null byte"
  | OutputUndecodable => UnicodeDecodeError
  | OtherFailure => OSError
  end.

(** What one call of [subprocess.run] does: the process runs to its end
    and leaves a file store; or the executable is not found
    ([FileNotFoundError], nothing ran); or the call raises another
    exception, after which the file store may have changed. *)
Inductive run_result : Type :=
| Completes (proc : completed) (fs : gmap string node)
| NotFound
| Aborts (e : run_error) (fs : gmap string node).

(** One call of [subprocess.run] as the log keeps it. *)
Inductive call : Type :=
| Ran (proc : completed)
| Missing
| Failed (e : run_error).

Definition entry : Type := list string * call.

(** What [urllib.request.urlopen] and the copy of its response do: no
    response at all, the whole body, or a body that breaks off. *)
Inductive fetch : Type :=
| Unreachable
| Serves (data : filedata)
| Breaks (partial : filedata).

(** The state threaded through the program.  [files] maps each path
    that exists to what is there; [spawned] lists the calls of
    [subprocess.run], oldest first, each with its command line and what
    became of it; [fetched] lists the URLs opened; [temp_count] counts
    the names drawn by [tempfile]. *)
Record state : Type := State {
  files : gmap string node;
  spawned : list entry;
  fetched : list string;
  temp_count : nat;
}.

(** The world outside the program.  [makedirs_error name fs] tells, when
    [os.makedirs] fails on a name that is free and lies under no regular
    file (a read-only or forbidden place), the exception and how many of
    the directories above the name it had made by then; [open_error path
    fs] is why [open(path, "wb")] fails on a path that is no directory,
    if it does; [json_loads text] is [None] when [text] does not decode
    as JSON; [random_name n] is the [n]-th name [tempfile] draws, as
    indices into its alphabet. *)
Record system : Type := System {
  exec : list string -> gmap string node -> run_result;
  urlopen : string -> fetch;
  makedirs_error : string -> gmap string node -> option (exn * nat);
  open_error : string -> gmap string node -> option exn;
  json_loads : string -> option json;
  gettempdir : string;
  random_name : nat -> list nat;
}.

(** Values read from the environment when the module is imported. *)
Record config : Type := Config {
  MODELS_DIR : string;
  MODEL_ARG : string;
  THREADS : Z;
  BEAM_SIZE : Z;
  WHISPER_BIN : string;
}.

(** The defaults of the [os.getenv] calls. *)
Definition default_config : config :=
  {| MODELS_DIR := "/models"; MODEL_ARG := "base.en";
     THREADS := 4; BEAM_SIZE := 5; WHISPER_BIN := "whisper-cli" |}.

Definition GGML_MAP : list (string * string) :=
  [ ("tiny", "ggml-tiny.bin");
    ("tiny.en", "ggml-tiny.en.bin");
    ("base", "ggml-base.bin");
    ("base.en", "ggml-base.en.bin");
    ("small", "ggml-small.bin");
    ("small.en", "ggml-small.en.bin");
    ("medium", "ggml-medium.bin");
    ("medium.en", "ggml-medium.en.bin");
    ("large-v1", "ggml-large-v1.bin");
    ("large-v2", "ggml-large-v2.bin");
    ("large-v3", "ggml-large-v3.bin") ].

(** [GGML_MAP.get(key)] *)
Fixpoint GGML_MAP_get_in (table : list (string * string)) (key : string)
  : option string :=
  match table with
  | [] => None
  | (k, v) :: rest => if String.eqb k key then Some v
                      else GGML_MAP_get_in rest key
  end.

Definition GGML_MAP_get : string -> option string := GGML_MAP_get_in GGML_MAP.

(** [os.path.exists(path)]: true of a regular file and of a directory. *)
Definition path_exists (path : string) (st : state) : bool :=
  match files st !! path with Some _ => true | None => false end.

Definition model_url (fname : string) : string :=
  "https://huggingface.co/ggerganov/whisper.cpp/resolve/main/" +:+ fname.

Definition with_files (fs : gmap string node) (st : state) : state :=
  {| files := fs; spawned := spawned st; fetched := fetched st;
     temp_count := temp_count st |}.

Definition log_spawn (cmd : list string) (c : call) (st : state) : state :=
  {| files := files st; spawned := spawned st ++ [(cmd, c)];
     fetched := fetched st; temp_count := temp_count st |}.

Definition log_fetch (url : string) (st : state) : state :=
  {| files := files st; spawned := spawned st;
     fetched := fetched st ++ [url]; temp_count := temp_count st |}.

Definition draw_name (st : state) : state :=
  {| files := files st; spawned := spawned st; fetched := fetched st;
     temp_count := S (temp_count st) |}.

(** The directories above [name]: its prefixes that end right before a
    separator, the empty one aside ([acc] is the part already read). *)
Fixpoint parents_from (acc name : string) : list string :=
  match name with
  | EmptyString => []
  | String c rest =>
      (if Ascii.eqb c posixpath.sep && negb (String.eqb acc "")
       then [acc] else [])
      ++ parents_from (acc +:+ String c "") rest
  end.

Definition parents (name : string) : list string := parents_from "" name.

Definition is_file (fs : gmap string node) (path : string) : bool :=
  match fs !! path with Some (File _) => true | _ => false end.

(** A directory at [path] unless something is there already. *)
Definition ensure_dir (path : string) (fs : gmap string node)
  : gmap string node :=
  match fs !! path with Some _ => fs | None => <[path := Dir]> fs end.

(** [os.makedirs(name, exist_ok=True)].  The empty name is no path; a
    directory that is there is accepted; a regular file at the name or
    above it stands in the way; elsewhere the operating system decides:
    when it lets the call through, the name and the directories above it
    are there afterwards, and when it does not, the outermost of the
    missing directories may have been made before the call failed. *)
Definition makedirs (sys : system) (name : string) (st : state)
  : result unit * state :=
  if String.eqb name "" then (Raise (FileNotFoundError name), st)
  else
    match files st !! name with
    | Some Dir => (Ok tt, st)
    | Some (File _) => (Raise FileExistsError, st)
    | None =>
        if existsb (is_file (files st)) (parents name)
        then (Raise NotADirectoryError, st)
        else
          match makedirs_error sys name (files st) with
          | Some (e, n) =>
              (Raise e,
               with_files
                 (fold_right ensure_dir (files st) (take n (parents name)))
                 st)
          | None =>
              (Ok tt,
               with_files
                 (<[name := Dir]>
                    (fold_right ensure_dir (files st) (parents name))) st)
          end
    end.

(** [open(path, "wb")]: whether the file can be created or truncated. *)
Definition open_wb (sys : system) (path : string) (st : state)
  : result unit :=
  match files st !! path with
  | Some Dir => Raise IsADirectoryError
  | _ =>
      match open_error sys path (files st) with
      | Some e => Raise e
      | None => Ok tt
      end
  end.

(** [with urlopen(url) as r, open(path, "wb") as f: copyfileobj(r, f)]:
    [urlopen] comes first; the file is created before the copy, which may
    break off and leave what it had written. *)
Definition download (sys : system) (url path : string) (st : state)
  : result unit * state :=
  let st1 := log_fetch url st in
  match urlopen sys url with
  | Unreachable => (Raise URLError, st1)
  | Serves data =>
      match open_wb sys path st1 with
      | Raise e => (Raise e, st1)
      | Ok _ => (Ok tt, with_files (<[path := File data]> (files st1)) st1)
      end
  | Breaks partial =>
      match open_wb sys path st1 with
      | Raise e => (Raise e, st1)
      | Ok _ => (Raise ConnectionError,
                 with_files (<[path := File partial]> (files st1)) st1)
      end
  end.

Definition resolve_model_path (sys : system) (cfg : config) (st : state)
  : result string * state :=
  if Text.has_char posixpath.sep (MODEL_ARG cfg) then
    if negb (path_exists (MODEL_ARG cfg) st)
    then (Raise (FileNotFoundError ("Model not found at " +:+ MODEL_ARG cfg)), st)
    else (Ok (MODEL_ARG cfg), st)
  else
    match GGML_MAP_get (MODEL_ARG cfg) with
    | None | Some EmptyString =>
        (Raise (ValueError ("Unknown model alias: " +:+ MODEL_ARG cfg)), st)
    | Some fname =>
        let path := posixpath.join (MODELS_DIR cfg) fname in
        if negb (path_exists path st) then
          match makedirs sys (MODELS_DIR cfg) st with
          | (Raise e, st1) => (Raise e, st1)
          | (Ok _, st1) =>
              match download sys (model_url fname) path st1 with
              | (Ok _, st2) => (Ok path, st2)
              | (Raise e, st2) => (Raise e, st2)
              end
          end
        else (Ok path, st)
    end.

(** ** The application object and its routes *)

(** The functions routes lead to: the four pages [FastAPI()] serves by
    itself, and the two handlers of the module. *)
Inductive endpoint : Type :=
| openapi_endpoint
| swagger_ui_html_endpoint
| swagger_ui_redirect_endpoint
| redoc_html_endpoint
| healthz_endpoint
| transcribe_endpoint.

Record route : Type := Route {
  route_path : string;
  route_methods : list string;
  route_endpoint : endpoint;
}.

(** [app.add_route(path, f)]: a plain route, which answers GET and HEAD. *)
Definition add_route (path : string) (f : endpoint) (app : list route)
  : list route := app ++ [Route path ["GET"; "HEAD"] f].

(** [FastAPI()] with its default arguments: the schema, the two
    documentation pages and the redirect page of the first. *)
Definition FastAPI : list route :=
  add_route "/redoc" redoc_html_endpoint
    (add_route "/docs/oauth2-redirect" swagger_ui_redirect_endpoint
       (add_route "/docs" swagger_ui_html_endpoint
          (add_route "/openapi.json" openapi_endpoint []))).

(** The decorators [@api.get(path)] and [@api.post(path)]. *)
Definition api_get (path : string) (f : endpoint) (app : list route)
  : list route := app ++ [Route path ["GET"] f].

Definition api_post (path : string) (f : endpoint) (app : list route)
  : list route := app ++ [Route path ["POST"] f].

(** The module-level object [api] once the module is imported. *)
Definition api : list route :=
  api_post "/transcribe" transcribe_endpoint
    (api_get "/healthz" healthz_endpoint FastAPI).

(** Routing: the endpoint of the first route with the request's path
    and method, if there is one (a request that no route answers in
    full runs no endpoint). *)
Fixpoint dispatch (app : list route) (m : string) (path : string)
  : option endpoint :=
  match app with
  | [] => None
  | r :: rest =>
      if String.eqb (route_path r) path
         && existsb (String.eqb m) (route_methods r)
      then Some (route_endpoint r)
      else dispatch rest m path
  end.

(** ** Requests and responses *)

Record upload : Type := Upload {
  filename : option string;
  body : filedata;
}.

(** The form of a transcribe request; [language], [task] and [word_ts]
    hold their defaults ([None], ["transcribe"], [False]) when absent. *)
Record form : Type := Form {
  file : upload;
  language : option string;
  task : string;
  word_ts : bool;
}.

Record response : Type := Response {
  status_code : Z;
  content : json;
}.

(** [JSONResponse(status_code=n, content=c)]: the body is rendered at
    once with [allow_nan=False], which raises on a float that is not
    finite. *)
Definition JSONResponse (code : Z) (c : json) : result response :=
  if Py.compliant c then Ok (Response code c)
  else Raise (ValueError "Out of range float values are not JSON compliant").

(** [JSONResponse(c)], whose status is 200. *)
Definition JSONResponse_default (c : json) : result response :=
  JSONResponse 200 c.

(** What [_run] returns and the loop keeps as [last]:
    candidate, cmd, proc, err. *)
Definition attempt : Type :=
  string * list string * option completed * option exn.

(** [os.unlink(path)] *)
Definition unlink (path : string) (st : state) : result unit * state :=
  match files st !! path with
  | Some (File _) => (Ok tt, with_files (delete path (files st)) st)
  | Some Dir => (Raise IsADirectoryError, st)
  | None => (Raise (FileNotFoundError path), st)
  end.

(** The alphabet of [tempfile]'s random names. *)
Definition name_alphabet : list ascii :=
  list_ascii_of_string "abcdefghijklmnopqrstuvwxyz0123456789_".

Definition name_char (i : nat) : ascii :=
  nth (i mod 37) name_alphabet "a"%char.

Definition name_text (indices : list nat) : string :=
  string_of_list_ascii (map name_char indices).

Section Handlers.

Variable sys : system.
Variable cfg : config.
(** The module-level [MODEL_PATH], what [resolve_model_path] returned
    at import. *)
Variable MODEL_PATH : string.

Definition healthz : json :=
  JObj [ ("ok", JBool true);
         ("model", JStr (MODEL_ARG cfg));
         ("model_path", JStr MODEL_PATH);
         ("threads", JInt (THREADS cfg));
         ("beam_size", JInt (BEAM_SIZE cfg));
         ("bin", JStr (WHISPER_BIN cfg)) ].

(** The command line [_run] builds; [if language:] holds of a [str] that
    is not empty. *)
Definition _run_cmd (bin_name tmp_path out_prefix : string)
    (language : option string) (task : string) (word_ts : bool)
  : list string :=
  let cmd := [ bin_name; "-m"; MODEL_PATH; "-f"; tmp_path;
               "-oj"; "-osrt"; "-of"; out_prefix;
               "-t"; Text.of_int (THREADS cfg);
               "-bs"; Text.of_int (BEAM_SIZE cfg) ] in
  let cmd := match language with
             | Some (String c l) => cmd ++ ["-l"; String c l]
             | _ => cmd
             end in
  let cmd := if String.eqb task "translate" then cmd ++ ["-tr"] else cmd in
  let cmd := if word_ts then cmd ++ ["-owts"] else cmd in
  cmd.

(** [_run]: [except FileNotFoundError] turns a missing executable into
    the third kind of return value; any other exception of
    [subprocess.run] goes through. *)
Definition _run (bin_name tmp_path out_prefix : string)
    (language : option string) (task : string) (word_ts : bool)
    (st : state)
  : result (list string * option completed * option exn) * state :=
  let cmd := _run_cmd bin_name tmp_path out_prefix language task word_ts in
  match exec sys cmd (files st) with
  | Completes proc fs =>
      (Ok (cmd, Some proc, None), with_files fs (log_spawn cmd (Ran proc) st))
  | NotFound =>
      (Ok (cmd, None, Some (FileNotFoundError bin_name)),
       log_spawn cmd Missing st)
  | Aborts e fs =>
      (Raise (run_error_exn e), with_files fs (log_spawn cmd (Failed e) st))
  end.

(** The test that sends the loop on after a run that was found:
    [proc.returncode != 0 and "deprecated" in (stdout.lower() + stderr.lower())]. *)
Definition deprecation_failure (proc : completed) : bool :=
  negb (returncode proc =? 0)
  && Text.contains "deprecated"
       (Text.lower (stdout proc) +:+ Text.lower (stderr proc)).

(** The [for candidate in candidates] loop of [transcribe], from the
    candidates still to try and the current [last].  An exception of
    [_run] leaves the loop and the handler.  A tuple with neither [proc]
    nor [err], which [_run] never returns, would fail on
    [proc.returncode]. *)
Fixpoint try_candidates (candidates : list string)
    (tmp_path out_prefix : string) (language : option string)
    (task : string) (word_ts : bool)
    (last : option attempt) (st : state)
  : result (option attempt) * state :=
  match candidates with
  | [] => (Ok last, st)
  | candidate :: rest =>
      match _run candidate tmp_path out_prefix language task word_ts st with
      | (Raise e, st1) => (Raise e, st1)
      | (Ok (cmd, proc, err), st1) =>
          let last := Some (candidate, cmd, proc, err) in
          match err with
          | Some _ =>
              try_candidates rest tmp_path out_prefix language task word_ts
                last st1
          | None =>
              match proc with
              | None => (Raise AttributeError, st1)
              | Some p =>
                  if deprecation_failure p
                  then try_candidates rest tmp_path out_prefix language task
                         word_ts last st1
                  else (Ok last, st1)
              end
          end
      end
  end.

(** [tempfile.NamedTemporaryFile(delete=False, suffix=suffix)]: the
    path of the new, empty file. *)
Definition NamedTemporaryFile (suffix : string) (st : state)
  : string * state :=
  let name := posixpath.join (gettempdir sys)
                ("tmp" +:+ name_text (random_name sys (temp_count st))
                 +:+ suffix) in
  (name, with_files (<[name := File (Utf8 "")]> (files st)) (draw_name st)).

(** [tempfile.mkdtemp()]: the path of the new directory. *)
Definition mkdtemp (st : state) : string * state :=
  let name := posixpath.join (gettempdir sys)
                ("tmp" +:+ name_text (random_name sys (temp_count st))) in
  (name, with_files (<[name := Dir]> (files st)) (draw_name st)).

(** [shutil.copyfileobj(src, dst)] into the file at [path]. *)
Definition copyfileobj (data : filedata) (path : string) (st : state)
  : state :=
  with_files (<[path := File data]> (files st)) st.

(** [os.path.splitext(file.filename or "")[1] or ".wav"] *)
Definition upload_suffix (f : upload) : string :=
  match snd (posixpath.splitext
               (match filename f with Some n => n | None => "" end)) with
  | EmptyString => ".wav"
  | ext => ext
  end.

(** [open(path, "r", encoding="utf-8")] and [f.read()]. *)
Definition read_text (path : string) (st : state) : result string :=
  match files st !! path with
  | None => Raise (FileNotFoundError path)
  | Some Dir => Raise IsADirectoryError
  | Some (File (Binary _)) => Raise UnicodeDecodeError
  | Some (File (Utf8 text)) => Ok text
  end.

(** [json.load] on the file at [path], opened for reading. *)
Definition load_json (path : string) (st : state) : result json :=
  text ← read_text path st;
  match json_loads sys text with
  | Some v => Ok v
  | None => Raise JSONDecodeError
  end.

(** One element of the [segments] comprehension. *)
Definition segment_of (s : json) : result json :=
  s_start ← Py.get s "start" JNull;
  s_end ← Py.get s "end" JNull;
  s_text ← Py.get s "text" (JStr "");
  s_text ← Py.strip s_text;
  Ok (JObj [("start", s_start); ("end", s_end); ("text", s_text)]).

Definition strs (l : list string) : json := JArr (map JStr l).

(** Lines 158 to 169 of [transcribe]: the success response, from the
    decoded JSON output, the subtitles and the word timestamps. *)
Definition transcription (data srt wts : json) (candidate : string)
  : result response :=
  d_language ← Py.get data "language" JNull;
  d_duration ← Py.get data "duration" JNull;
  d_text ← Py.get data "text" (JStr "");
  d_text ← Py.strip d_text;
  d_segments ← Py.get data "segments" (JArr []);
  d_segments ← Py.iter d_segments;
  segments ← Py.comprehension segment_of d_segments;
  JSONResponse_default
    (JObj [ ("language", d_language);
            ("duration", d_duration);
            ("text", d_text);
            ("segments", JArr segments);
            ("srt", srt);
            ("word_timestamps", wts);
            ("used_bin", JStr candidate) ]).

(** Lines 143 to 169 of [transcribe]: the output files are read and the
    success response is built. *)
Definition transcribe_success (candidate out_prefix : string)
    (word_ts : bool) (st : state) : result response :=
  data ← load_json (out_prefix +:+ ".json") st;
  srt ← (if path_exists (out_prefix +:+ ".srt") st
         then text ← read_text (out_prefix +:+ ".srt") st; Ok (JStr text)
         else Ok JNull);
  wts ← (if word_ts
         then if path_exists (out_prefix +:+ ".wts.json") st
              then load_json (out_prefix +:+ ".wts.json") st
              else Ok JNull
         else Ok JNull);
  transcription data srt wts candidate.

(** Lines 114 to 169 of [transcribe]: from [last] to the response. *)
Definition transcribe_respond (candidates : list string)
    (out_prefix : string) (word_ts : bool) (last : option attempt)
    (st : state) : result response :=
  match last with
  | None => Raise TypeError
  | Some (candidate, cmd, proc, err) =>
      match err, proc with
      | Some _, _ =>
          JSONResponse 500
            (JObj [ ("error",
                     JStr ("whisper binary not found (tried "
                           +:+ Text.repr_list candidates +:+ ")")) ])
      | None, None =>
          JSONResponse 500
            (JObj [ ("error", JStr "unknown subprocess state") ])
      | None, Some p =>
          if negb (returncode p =? 0) then
            JSONResponse 500
              (JObj [ ("error", JStr "whisper.cpp failed");
                      ("exit_code", JInt (returncode p));
                      ("stderr_tail",
                       JStr (Text.slice_from (-2000) (stderr p)));
                      ("stdout_tail",
                       JStr (Text.slice_from (-2000) (stdout p)));
                      ("cmd", JStr (Text.join_with " " cmd));
                      ("tried_bins", strs candidates);
                      ("used_bin", JStr candidate) ])
          else if negb (path_exists (out_prefix +:+ ".json") st) then
            JSONResponse 500
              (JObj [ ("error", JStr "missing JSON output");
                      ("stdout_tail",
                       JStr (Text.slice_from (-2000) (stdout p)));
                      ("stderr_tail",
                       JStr (Text.slice_from (-2000) (stderr p))) ])
          else transcribe_success candidate out_prefix word_ts st
      end
  end.

Definition candidates : list string :=
  [WHISPER_BIN cfg; "whisper-cli"; "whisper"].

(** Lines 88 to 94 of [transcribe]: the upload is stored and the output
    directory made; gives [tmp_path], [out_prefix] and the new state. *)
Definition store_upload (f : upload) (st : state)
  : string * string * state :=
  let suffix := upload_suffix f in
  let '(tmp_path, st) := NamedTemporaryFile suffix st in
  let st := copyfileobj (body f) tmp_path st in
  let '(tmpdir, st) := mkdtemp st in
  let out_prefix := posixpath.join tmpdir "out" in
  (tmp_path, out_prefix, st).

(** The handler of [POST /transcribe].  The input file is unlinked once
    the loop has ended; an exception that leaves the loop leaves the
    handler before that. *)
Definition transcribe (req : form) (st : state) : result response * state :=
  let '(tmp_path, out_prefix, st) := store_upload (file req) st in
  match try_candidates candidates tmp_path out_prefix
          (language req) (task req) (word_ts req) None st with
  | (Raise e, st) => (Raise e, st)
  | (Ok last, st) =>
      let st := snd (unlink tmp_path st) in
      (transcribe_respond candidates out_prefix (word_ts req) last st, st)
  end.

End Handlers.

(** * Vocabulary of the properties *)

(** C1 as the specification states it: the transcribe route is the only
    route the application answers. *)
Definition single_endpoint (app : list route) : Prop :=
  forall m path f,
    dispatch app m path = Some f ->
    m = "POST" /\ path = "/transcribe" /\ f = transcribe_endpoint.




(** The loop goes on after the call: the executable was not found, or
    the run failed with a deprecation notice. *)
Definition passes (c : call) : bool :=
  match c with
  | Missing => true
  | Ran p => deprecation_failure p
  | Failed _ => false
  end.


(** The tuple the loop keeps for candidate [c] after a call that
    returned as [k], given the command line of each candidate. *)
Definition attempt_of (cmd_of : string -> list string) (c : string)
    (k : call) : attempt :=
  (c, cmd_of c,
   match k with Ran p => Some p | _ => None end,
   match k with Missing => Some (FileNotFoundError c) | _ => None end).

(** One call of [subprocess.run], as the log keeps it, and the file
    store after it. *)
Definition call_of (r : run_result) : call :=
  match r with
  | Completes p _ => Ran p
  | NotFound => Missing
  | Aborts e _ => Failed e
  end.

Definition files_after (r : run_result) (fs : gmap string node)
  : gmap string node :=
  match r with
  | Completes _ fs' => fs'
  | NotFound => fs
  | Aborts _ fs' => fs'
  end.

(** What the loop ends in when its last call, for candidate [c],
    returned as [k]: the exception of the call, or the tuple kept for
    it. *)
Definition loop_result (cmd_of : string -> list string) (c : string)
    (k : call) (st : state) : result (option attempt) * state :=
  match k with
  | Failed e => (Raise (run_error_exn e), st)
  | _ => (Ok (Some (attempt_of cmd_of c k)), st)
  end.

(** The process that ran last among the logged calls, if any ran. *)
Fixpoint last_ran (new : list entry) : option completed :=
  match new with
  | [] => None
  | e :: rest =>
      match last_ran rest with
      | Some p => Some p
      | None => match snd e with Ran p => Some p | _ => None end
      end
  end.

(** What [store_upload] yields, by name. *)
Definition input_path (sys : system) (f : upload) (st : state) : string :=
  fst (fst (store_upload sys f st)).

Definition output_prefix (sys : system) (f : upload) (st : state) : string :=
  snd (fst (store_upload sys f st)).

Definition stored (sys : system) (f : upload) (st : state) : state :=
  snd (store_upload sys f st).

(** The directory [mkdtemp] makes for the request. *)
Definition output_dir (sys : system) (f : upload) (st : state) : string :=
  fst (mkdtemp sys (snd (NamedTemporaryFile sys (upload_suffix f) st))).

(** The command line of each candidate in the request [req]. *)
Definition request_cmd (sys : system) (cfg : config) (MODEL_PATH : string)
    (req : form) (st : state) (candidate : string) : list string :=
  _run_cmd cfg MODEL_PATH candidate
    (input_path sys (file req) st) (output_prefix sys (file req) st)
    (language req) (task req) (word_ts req).


(** [d.get(key, default)] on the items of a [dict]. *)
Definition field_or (fields : list (string * json)) (key : string)
    (default : json) : json :=
  match Py.items_get key fields with
  | Some v => v
  | None => default
  end.

(** The ["text"] entry of a [dict], when there is one, is a [str]. *)
Definition text_ok (fields : list (string * json)) : bool :=
  match Py.items_get "text" fields with
  | None | Some (JStr _) => true
  | Some _ => false
  end.

Definition segment_shaped (s : json) : bool :=
  match s with
  | JObj fields => text_ok fields
  | _ => false
  end.


(** The values a segment hands on to the response hold no float that is
    not finite. *)
Definition segment_compliant (s : json) : bool :=
  match s with
  | JObj fields =>
      Py.compliant (field_or fields "start" JNull)
      && Py.compliant (field_or fields "end" JNull)
  | _ => true
  end.




(** One segment of the response, from one segment of the JSON output. *)
Definition timed_segment (s seg : json) : Prop :=
  exists fields text,
    s = JObj fields
    /\ field_or fields "text" (JStr "") = JStr text
    /\ seg = JObj [ ("start", field_or fields "start" JNull);
                    ("end", field_or fields "end" JNull);
                    ("text", JStr (Text.strip text)) ].

(** The ["error"] entry of a response. *)
Definition error_of (resp : response) : option json :=
  match content resp with
  | JObj fields => Py.items_get "error" fields
  | _ => None
  end.

Definition has_error_field (resp : response) : bool :=
  match error_of resp with Some _ => true | None => false end.

(** The handler returns a 500 response with an error field. *)
Definition error_500 (r : result response) : Prop :=
  exists resp, r = Ok resp /\ status_code resp = 500
               /\ has_error_field resp = true.


(** The three failures C3 names, read off the calls logged for the
    request and the final file store. *)
Definition none_executed (new : list entry) : Prop :=
  Forall (fun e : entry => snd e = Missing) new.

Definition chosen_failed (new : list entry) : Prop :=
  exists p, last_ran new = Some p /\ returncode p <> 0.

Definition json_missing (out_prefix : string) (st : state) : Prop :=
  path_exists (out_prefix +:+ ".json") st = false.

Definition failure_case (sys : system) (req : form) (st : state)
    (new : list entry) (st' : state) : Prop :=
  none_executed new \/ chosen_failed new
  \/ json_missing (output_prefix sys (file req) st) st'.


(** C4's description of a success response [resp], given the output
    prefix, whether word timestamps were asked for, and the final state:
    the JSON output file is there and decodes to an object; the response
    carries its language and duration, its text stripped, and its
    segments, each with start, end and stripped text; [srt] is the text
    of the subtitle file if that file is there and null otherwise;
    [word_timestamps] is the decoded word-timestamp file if word
    timestamps were asked for and that file is there, and null
    otherwise. *)
Definition parsed_from_outputs (sys : system) (tried : list string)
    (out_prefix : string) (word_ts : bool) (st' : state) (resp : response)
  : Prop :=
  exists raw fields text items segs srt wts used,
    In used tried
    /\ files st' !! (out_prefix +:+ ".json") = Some (File (Utf8 raw))
    /\ json_loads sys raw = Some (JObj fields)
    /\ field_or fields "text" (JStr "") = JStr text
    /\ Py.iter (field_or fields "segments" (JArr [])) = Ok items
    /\ Forall2 timed_segment items segs
    /\ match files st' !! (out_prefix +:+ ".srt") with
       | None => srt = JNull
       | Some (File (Utf8 t)) => srt = JStr t
       | Some _ => False
       end
    /\ (if word_ts
        then match files st' !! (out_prefix +:+ ".wts.json") with
             | None => wts = JNull
             | Some (File (Utf8 rawW)) => json_loads sys rawW = Some wts
             | Some _ => False
             end
        else wts = JNull)
    /\ content resp =
         JObj [ ("language", field_or fields "language" JNull);
                ("duration", field_or fields "duration" JNull);
                ("text", JStr (Text.strip text));
                ("segments", JArr segs);
                ("srt", srt);
                ("word_timestamps", wts);
                ("used_bin", JStr used) ].

(** [os.makedirs(name, exist_ok=True)] goes through: the name is not
    empty, and a directory is there already, or nothing is there, no
    regular file lies above and the operating system lets it through. *)
Definition can_make (sys : system) (name : string) (st : state) : bool :=
  negb (String.eqb name "")
  && match files st !! name with
     | Some Dir => true
     | Some (File _) => false
     | None =>
         negb (existsb (is_file (files st)) (parents name))
         && match makedirs_error sys name (files st) with
            | Some _ => false
            | None => true
            end
     end.



(** * Vocabulary of the further properties *)

(** The text begins, or ends, with a whitespace character. *)
Definition starts_space (s : string) : bool :=
  match s with
  | String c _ => Text.isspace c
  | EmptyString => false
  end.

Fixpoint ends_space (s : string) : bool :=
  match s with
  | EmptyString => false
  | String c EmptyString => Text.isspace c
  | String _ r => ends_space r
  end.

Fixpoint all_space (s : string) : bool :=
  match s with
  | EmptyString => true
  | String c r => Text.isspace c && all_space r
  end.


(** * Sample worlds, used to run the program on concrete inputs *)

Definition empty_state : state :=
  {| files := ∅; spawned := []; fetched := []; temp_count := 0 |}.

(** Names "k3xa", "k3xb", ... *)
Definition sample_names (n : nat) : list nat := [10; 29; 23; n]%nat.

(** No network, no binary installed. *)
Definition bare_system : system :=
  {| exec := fun _ _ => NotFound;
     urlopen := fun _ => Unreachable;
     makedirs_error := fun _ _ => None;
     open_error := fun _ _ => None;
     json_loads := fun _ => None;
     gettempdir := "/tmp";
     random_name := sample_names |}.

(** A network that serves the weights of [base.en]. *)
Definition online_system : system :=
  {| exec := fun _ _ => NotFound;
     urlopen := fun url =>
       if String.eqb url (model_url "ggml-base.en.bin")
       then Serves (Binary "ggml weights") else Unreachable;
     makedirs_error := fun _ _ => None;
     open_error := fun _ _ => None;
     json_loads := fun _ => None;
     gettempdir := "/tmp";
     random_name := sample_names |}.

(** A network on which every transfer breaks off. *)
Definition flaky_system : system :=
  {| exec := fun _ _ => NotFound;
     urlopen := fun _ => Breaks (Binary "ggml w");
     makedirs_error := fun _ _ => None;
     open_error := fun _ _ => None;
     json_loads := fun _ => None;
     gettempdir := "/tmp";
     random_name := sample_names |}.

(** The configuration with [MODELS_DIR] set to the empty string. *)
Definition here_config : config :=
  {| MODELS_DIR := ""; MODEL_ARG := "base.en";
     THREADS := 4; BEAM_SIZE := 5; WHISPER_BIN := "whisper-cli" |}.


(** A binary installed under [name]: any other name is not found. *)
Definition installed (name : string)
    (behaviour : list string -> gmap string node
                 -> completed * gmap string node)
    (cmd : list string) (fs : gmap string node) : run_result :=
  match cmd with
  | bin :: _ =>
      if String.eqb bin name
      then Completes (fst (behaviour cmd fs)) (snd (behaviour cmd fs))
      else NotFound
  | [] => NotFound
  end.

(** The value given after [-of] on a command line of [_run]. *)
Definition of_argument (cmd : list string) : string := nth 8 cmd "".

Definition with_exec
    (run : list string -> gmap string node -> run_result) : system :=
  {| exec := run;
     urlopen := fun _ => Unreachable;
     makedirs_error := fun _ _ => None;
     open_error := fun _ _ => None;
     json_loads := fun _ => None;
     gettempdir := "/tmp";
     random_name := sample_names |}.

(** [whisper-cli] is installed and fails on the input without a word
    about deprecation. *)
Definition failing_system : system :=
  with_exec (installed "whisper-cli"
               (fun _ fs => (Completed 1 "" "error: failed to read audio", fs))).

(** The configured binary is the old [main], which only prints a
    deprecation notice and fails; [whisper-cli] is installed too and
    fails on the input. *)
Definition legacy_config : config :=
  {| MODELS_DIR := "/models"; MODEL_ARG := "base.en";
     THREADS := 4; BEAM_SIZE := 5; WHISPER_BIN := "main" |}.

Definition legacy_notice : completed :=
  Completed 1 "" "WARNING: The binary 'main' is Deprecated.".

Definition legacy_system : system :=
  with_exec (fun cmd fs =>
               match installed "main" (fun _ fs => (legacy_notice, fs)) cmd fs with
               | NotFound => exec failing_system cmd fs
               | r => r
               end).


Definition sample_request : form :=
  {| file := {| filename := Some "talk.mp3"; body := Binary "RIFF" |};
     language := None; task := "transcribe"; word_ts := false |}.

(** The same request, with word timestamps asked for. *)
Definition timed_request : form :=
  {| file := {| filename := Some "talk.mp3"; body := Binary "RIFF" |};
     language := None; task := "transcribe"; word_ts := true |}.


Definition sample_model_path : string := "/models/ggml-base.en.bin".

(** A piece of JSON text between double quotes. *)
Definition quoted (s : string) : string :=
  String Text.dquote (s +:+ String Text.dquote "").

(** The text [{"text": " hello ", "segments": [{"start": 0, "end": 2,
    "text": " hello"}]}]. *)
Definition sample_json_text : string :=
  "{" +:+ quoted "text" +:+ ": " +:+ quoted " hello " +:+ ", "
  +:+ quoted "segments" +:+ ": [{" +:+ quoted "start" +:+ ": 0, "
  +:+ quoted "end" +:+ ": 2, " +:+ quoted "text" +:+ ": "
  +:+ quoted " hello" +:+ "}]}".

Definition sample_json : json :=
  JObj [ ("text", JStr " hello ");
         ("segments",
          JArr [ JObj [ ("start", JInt 0); ("end", JInt 2);
                        ("text", JStr " hello") ] ]) ].

(** The JSON decoder on the texts the sample worlds write: the sample
    text, the empty object, a one-element list, and anything else, which
    they only write when it is not JSON. *)
Definition sample_loads (text : string) : option json :=
  if String.eqb text sample_json_text then Some sample_json
  else if String.eqb text "{}" then Some (JObj [])
  else if String.eqb text "[1]" then Some (JArr [JInt 1])
  else None.

Definition with_exec_json
    (run : list string -> gmap string node -> run_result) : system :=
  {| exec := run;
     urlopen := fun _ => Unreachable;
     makedirs_error := fun _ _ => None;
     open_error := fun _ _ => None;
     json_loads := sample_loads;
     gettempdir := "/tmp";
     random_name := sample_names |}.

(** [whisper-cli] is installed, exits with 0 and writes the JSON and
    subtitle files under the output prefix. *)
Definition working_system : system :=
  with_exec_json
    (installed "whisper-cli"
       (fun cmd fs =>
          (Completed 0 "" "",
           <[of_argument cmd +:+ ".srt" := File (Utf8 "1 hello")]>
             (<[of_argument cmd +:+ ".json" := File (Utf8 sample_json_text)]>
                fs)))).

(** The same, with a word-timestamp file written as well. *)
Definition timing_system : system :=
  with_exec_json
    (installed "whisper-cli"
       (fun cmd fs =>
          (Completed 0 "" "",
           <[of_argument cmd +:+ ".wts.json" := File (Utf8 "[1]")]>
             (<[of_argument cmd +:+ ".srt" := File (Utf8 "1 hello")]>
                (<[of_argument cmd +:+ ".json" := File (Utf8 sample_json_text)]>
                   fs))))).




(** * Properties *)

(** ** Text and paths *)

Example splitext_plain : posixpath.splitext "talk.mp3" = ("talk", ".mp3").
Proof. reflexivity. Qed.

Example splitext_hidden : posixpath.splitext ".bashrc" = (".bashrc", "").
Proof. reflexivity. Qed.

Example splitext_dir_dot : posixpath.splitext "a.b/c" = ("a.b/c", "").
Proof. reflexivity. Qed.

Example splitext_two : posixpath.splitext "x/..a.tar.gz" = ("x/..a.tar", ".gz").
Proof. reflexivity. Qed.

Example strip_both : Text.strip "  hello world
" = "hello world".
Proof. reflexivity. Qed.

Example repr_list_bins :
  Text.repr_list ["whisper-cli"; "it's"] = "['whisper-cli', " +:+ String Text.dquote ("it's" +:+ String Text.dquote "]").
Proof. reflexivity. Qed.

Example tail_slice : Text.slice_from (-3) "abcdef" = "def".
Proof. reflexivity. Qed.

Example of_int_neg : Text.of_int (-12) = "-12".
Proof. reflexivity. Qed.

Lemma append_cons (c : ascii) (a b : string) :
  String c a +:+ b = String c (a +:+ b).
Proof. reflexivity. Qed.

Lemma append_nil_r (a : string) : a +:+ "" = a.
Proof.
  induction a as [|x a IH]; [reflexivity | now rewrite append_cons, IH].
Qed.

Lemma append_assoc (a b c : string) : (a +:+ b) +:+ c = a +:+ (b +:+ c).
Proof.
  induction a as [|x a IH]; [reflexivity | now rewrite !append_cons, IH].
Qed.

Lemma take_drop (n : nat) (s : string) : Text.take n s +:+ Text.drop n s = s.
Proof.
  revert s; induction n as [|n IH]; intros [|c s]; simpl; try reflexivity.
  now rewrite append_cons, IH.
Qed.

Lemma slice_join (i : Z) (s : string) :
  Text.slice_to i s +:+ Text.slice_from i s = s.
Proof. apply take_drop. Qed.

(** [splitext] cuts its argument in two: root then extension. *)
Lemma splitext_join (p : string) :
  fst (posixpath.splitext p) +:+ snd (posixpath.splitext p) = p.
Proof.
  unfold posixpath.splitext.
  destruct (_ && _); simpl.
  - apply slice_join.
  - apply append_nil_r.
Qed.


Lemma lower_append (a b : string) :
  Text.lower (a +:+ b) = Text.lower a +:+ Text.lower b.
Proof.
  induction a as [|c a IH]; [reflexivity |].
  rewrite append_cons. cbn [Text.lower]. now rewrite append_cons, IH.
Qed.

Lemma drop_length (n : nat) (s : string) :
  String.length (Text.drop n s) = (String.length s - n)%nat.
Proof.
  revert s; induction n as [|n IH]; intros [|c s]; cbn [Text.drop String.length];
    try lia.
  rewrite IH. lia.
Qed.

(** X1: the tails of stdout and stderr put in an error response
    ([s[-2000:]]) are the end of the output, at most 2000 characters of
    it, and an output of at most 2000 characters is reported whole. *)
Theorem tail_2000 (s : string) :
  (exists front, s = front +:+ Text.slice_from (-2000) s)
  /\ Text.len (Text.slice_from (-2000) s) = Z.min (Text.len s) 2000
  /\ (Text.len s <= 2000 -> Text.slice_from (-2000) s = s).
Proof.
  unfold Text.slice_from, Text.len.
  split; [| split].
  - exists (Text.take (Text.clamp (-2000) s) s). symmetry. apply take_drop.
  - rewrite drop_length. unfold Text.clamp, Text.len.
    change (-2000 <? 0) with true. cbv iota. lia.
  - intros Hle. unfold Text.clamp, Text.len.
    change (-2000 <? 0) with true. cbv iota.
    replace (Z.to_nat _) with 0%nat by lia. now destruct s.
Qed.

Lemma tail_2000_witness : Text.slice_from (-2000) "boom" = "boom".
Proof.
  destruct (tail_2000 "boom") as (_ & _ & H). apply H.
  vm_compute. discriminate.
Defined.

Lemma lstrip_spec (s : string) :
  starts_space (Text.lstrip s) = false
  /\ exists l, s = l +:+ Text.lstrip s /\ all_space l = true.
Proof.
  induction s as [|c s [IH1 (l & IH2 & IH3)]]; cbn [Text.lstrip].
  - split; [reflexivity | now exists ""].
  - destruct (Text.isspace c) eqn:Hc.
    + split; [exact IH1 |]. exists (String c l).
      rewrite append_cons, <- IH2. cbn [all_space]. now rewrite Hc, IH3.
    + split; [exact Hc | now exists ""].
Qed.

Lemma rstrip_spec (s : string) :
  ends_space (Text.rstrip s) = false
  /\ exists r, s = Text.rstrip s +:+ r /\ all_space r = true.
Proof.
  induction s as [|c s [IH1 (r & IH2 & IH3)]]; cbn [Text.rstrip].
  - split; [reflexivity | now exists ""].
  - destruct (Text.rstrip s) as [|d t] eqn:Ht.
    + destruct (Text.isspace c) eqn:Hc.
      * split; [reflexivity |]. exists (String c r).
        rewrite IH2 at 1. cbn [all_space]. now rewrite Hc, IH3.
      * split; [cbn; exact Hc |]. exists r. now rewrite IH2 at 1.
    + split; [exact IH1 |]. exists r. split; [| exact IH3].
      rewrite append_cons, <- IH2. reflexivity.
Qed.

Lemma ends_space_suffix (l u : string) :
  u <> "" -> ends_space (l +:+ u) = ends_space u.
Proof.
  intros Hu. induction l as [|c l IH]; [reflexivity |].
  rewrite append_cons. cbn [ends_space]. rewrite IH.
  destruct (l +:+ u) eqn:E; [| reflexivity].
  destruct l; [cbn in E; contradiction | discriminate E].
Qed.

Lemma lstrip_fixed (s : string) : starts_space s = false -> Text.lstrip s = s.
Proof. destruct s as [|c s]; cbn; [reflexivity | now intros ->]. Qed.

Lemma rstrip_fixed (s : string) : ends_space s = false -> Text.rstrip s = s.
Proof.
  induction s as [|c s IH]; [reflexivity |]. cbn [ends_space Text.rstrip].
  destruct s as [|d t].
  - intros ->. reflexivity.
  - intros H. now rewrite (IH H).
Qed.

(** X2: [strip], which the handler applies to the text and to every
    segment text, removes whitespace at the two ends and nothing else:
    the argument is whitespace, then the result, then whitespace; the
    result neither begins nor ends with whitespace; stripping twice is
    stripping once. *)
Theorem strip_spec (s : string) :
  (exists l r, s = l +:+ Text.strip s +:+ r
               /\ all_space l = true /\ all_space r = true)
  /\ starts_space (Text.strip s) = false
  /\ ends_space (Text.strip s) = false
  /\ Text.strip (Text.strip s) = Text.strip s.
Proof.
  unfold Text.strip.
  destruct (rstrip_spec s) as [Hr (r & Hs & Hrs)].
  destruct (lstrip_spec (Text.rstrip s)) as [Hl (l & Ht & Hls)].
  assert (Hends : ends_space (Text.lstrip (Text.rstrip s)) = false).
  { destruct (Text.lstrip (Text.rstrip s)) as [|c u] eqn:E; [reflexivity |].
    rewrite <- Hr, Ht. symmetry. now apply ends_space_suffix. }
  split; [| split; [exact Hl | split; [exact Hends |]]].
  - exists l, r. split; [| auto].
    rewrite <- append_assoc, <- Ht. exact Hs.
  - rewrite (rstrip_fixed _ Hends). now apply lstrip_fixed.
Qed.

Lemma prefix_spec (n h : string) :
  String.prefix n h = true <-> exists b, h = n +:+ b.
Proof.
  revert h. induction n as [|c n IH]; intros h.
  - split; [intros _; now exists h | intros _; now destruct h].
  - destruct h as [|d h]; cbn [String.prefix].
    + split; [discriminate | intros [b Hb]; discriminate Hb].
    + destruct (ascii_dec c d) as [->|Hne].
      * rewrite IH. split; intros [b Hb]; exists b.
        -- now rewrite append_cons, <- Hb.
        -- rewrite append_cons in Hb. now injection Hb.
      * split; [discriminate |]. intros [b Hb]. rewrite append_cons in Hb.
        injection Hb as Hcd _. now contradiction Hne.
Qed.

Lemma contains_unfold (n h : string) :
  Text.contains n h
  = (String.prefix n h
     || match h with
        | EmptyString => false
        | String _ r => Text.contains n r
        end).
Proof. destruct h; reflexivity. Qed.

(** [needle in hay] holds exactly when [hay] is some text, then [needle],
    then some text. *)
Lemma contains_spec (n h : string) :
  Text.contains n h = true <-> exists a b, h = a +:+ n +:+ b.
Proof.
  split.
  - induction h as [|c h IH]; rewrite contains_unfold; intros H;
      apply orb_true_iff in H as [H | H].
    + apply prefix_spec in H as [b Hb]. now exists "", b.
    + discriminate H.
    + apply prefix_spec in H as [b Hb]. now exists "", b.
    + destruct (IH H) as (a & b & ->). now exists (String c a), b.
  - intros (a & b & ->). induction a as [|c a IH]; rewrite contains_unfold.
    + apply orb_true_iff. left. apply prefix_spec. now exists b.
    + rewrite append_cons, IH. apply orb_true_r.
Qed.

Lemma lower_split (s x y : string) :
  Text.lower s = x +:+ y ->
  exists s1 s2, s = s1 +:+ s2 /\ Text.lower s1 = x /\ Text.lower s2 = y.
Proof.
  revert s. induction x as [|c x IH]; intros s H.
  - now exists "", s.
  - destruct s as [|d s]; [discriminate H |].
    rewrite append_cons in H. cbn [Text.lower] in H. injection H as Hc Hs.
    destruct (IH s Hs) as (s1 & s2 & -> & H1 & H2).
    exists (String d s1), s2. cbn [Text.lower]. now rewrite Hc, H1.
Qed.

(** X3: the loop passes over a run that was found exactly when its exit
    code is not 0 and its stdout followed by its stderr holds the word
    "deprecated" in some mix of upper and lower case; the word may start
    in stdout and end in stderr. *)
Theorem deprecation_failure_spec (proc : completed) :
  deprecation_failure proc = true
  <-> returncode proc <> 0
      /\ exists a w b, stdout proc +:+ stderr proc = a +:+ w +:+ b
                       /\ Text.lower w = "deprecated".
Proof.
  unfold deprecation_failure. rewrite andb_true_iff, negb_true_iff, Z.eqb_neq.
  rewrite <- lower_append, contains_spec.
  split; intros [Hrc H]; (split; [exact Hrc |]).
  - destruct H as (a' & b' & H).
    apply lower_split in H as (a & rest & Hs & _ & H).
    apply lower_split in H as (w & b & -> & Hw & _).
    now exists a, w, b.
  - destruct H as (a & w & b & -> & Hw).
    exists (Text.lower a), (Text.lower b).
    now rewrite !lower_append, Hw.
Qed.

Lemma deprecation_failure_spec_witness :
  deprecation_failure (Completed 1 "usage: main is DEPRE" "CATED, use whisper-cli")
  = true.
Proof.
  apply deprecation_failure_spec. split; [discriminate |].
  now exists "usage: main is ", "DEPRECATED", ", use whisper-cli".
Defined.

Lemma has_char_drop (c : ascii) (k : nat) (s : string) :
  Text.has_char c s = false -> Text.has_char c (Text.drop k s) = false.
Proof.
  revert s. induction k as [|k IH]; intros [|a s]; cbn [Text.drop]; auto.
  cbn [Text.has_char]. intros H. apply orb_false_iff in H as [_ H]. auto.
Qed.

Lemma drop_add (a b : nat) (s : string) :
  Text.drop (a + b) s = Text.drop b (Text.drop a s).
Proof.
  revert s. induction a as [|a IH]; intros s; [reflexivity |].
  destruct s as [|c s]; cbn [Nat.add Text.drop]; [now destruct b | apply IH].
Qed.

Lemma drop_next (k : nat) (s rest : string) (c : ascii) :
  Text.drop k s = String c rest -> Text.drop (S k) s = rest.
Proof.
  intros H. replace (S k) with (k + 1)%nat by lia.
  now rewrite drop_add, H.
Qed.

(** [rfind] gives -1 when the character does not occur, and otherwise
    the place of its last occurrence. *)
Lemma rfind_from_spec (c : ascii) (s : string) :
  forall i acc : Z,
    (Text.has_char c s = false -> Text.rfind_from c s i acc = acc)
    /\ (Text.has_char c s = true ->
        exists (k : nat) (rest : string),
          Text.rfind_from c s i acc = i + Z.of_nat k
          /\ Text.drop k s = String c rest
          /\ Text.has_char c rest = false).
Proof.
  induction s as [|a s IH]; intros i acc; cbn [Text.has_char Text.rfind_from].
  - split; [reflexivity | discriminate].
  - destruct (IH (i + 1) (if Ascii.eqb a c then i else acc)) as [IHn IHy].
    destruct (Text.has_char c s) eqn:Hs.
    + rewrite orb_true_r. split; [discriminate | intros _].
      destruct (IHy eq_refl) as (k & rest & Hr & Hd & Hrest).
      exists (S k), rest. cbn [Text.drop]. split; [lia | auto].
    + rewrite orb_false_r, (IHn eq_refl).
      destruct (Ascii.eqb a c) eqn:Hac.
      * split; [discriminate | intros _].
        apply Ascii.eqb_eq in Hac as ->.
        exists 0%nat, s. cbn [Text.drop]. split; [lia | auto].
      * split; [reflexivity | discriminate].
Qed.

(** The extension [splitext] cuts off is empty, or one dot followed by
    characters that are neither a dot nor a path separator. *)
Lemma splitext_ext (p : string) :
  snd (posixpath.splitext p) = ""
  \/ exists rest,
       snd (posixpath.splitext p) = String posixpath.extsep rest
       /\ Text.has_char posixpath.extsep rest = false
       /\ Text.has_char posixpath.sep rest = false.
Proof.
  unfold posixpath.splitext, Text.rfind.
  destruct (rfind_from_spec posixpath.extsep p 0 (-1)) as [Dn Dy].
  destruct (rfind_from_spec posixpath.sep p 0 (-1)) as [Sn Sy].
  destruct (_ && _) eqn:Hcond; [| now left].
  apply andb_true_iff in Hcond as [Hlt _]. apply Z.ltb_lt in Hlt.
  right. cbn [snd].
  destruct (Text.has_char posixpath.extsep p) eqn:Hdot.
  - destruct (Dy eq_refl) as (k & rest & Hk & Hd & Hrest).
    rewrite Hk in Hlt |- *. exists rest.
    assert (Hlen : (k < String.length p)%nat).
    { pose proof (drop_length k p) as H. rewrite Hd in H. cbn in H. lia. }
    unfold Text.slice_from, Text.clamp, Text.len.
    replace (Z.to_nat _) with k
      by (destruct (0 + Z.of_nat k <? 0) eqn:E; [apply Z.ltb_lt in E |]; lia).
    split; [exact Hd | split; [exact Hrest |]].
    rewrite <- (drop_next k p rest _ Hd).
    destruct (Text.has_char posixpath.sep p) eqn:Hsep.
    + destruct (Sy eq_refl) as (j & rest' & Hj & Hd' & Hrest').
      rewrite Hj in Hlt.
      replace (S k) with (S j + (k - j))%nat by lia.
      rewrite drop_add, (drop_next j p rest' _ Hd').
      now apply has_char_drop.
    + now apply has_char_drop.
  - rewrite (Dn eq_refl) in Hlt.
    destruct (Text.has_char posixpath.sep p) eqn:Hsep.
    + destruct (Sy eq_refl) as (j & _ & Hj & _). lia.
    + rewrite (Sn eq_refl) in Hlt. lia.
Qed.

(** X4: whatever filename the client sends, the suffix given to the
    temporary file is one dot followed by characters that are neither a
    dot nor a path separator, so the filename chooses the extension of
    the temporary file and nothing else of its path. *)
Theorem upload_suffix_safe (f : upload) :
  exists rest,
    upload_suffix f = String posixpath.extsep rest
    /\ Text.has_char posixpath.extsep rest = false
    /\ Text.has_char posixpath.sep rest = false.
Proof.
  unfold upload_suffix.
  destruct (splitext_ext (match filename f with Some n => n | None => "" end))
    as [-> | (rest & -> & H1 & H2)].
  - now exists "wav".
  - now exists rest.
Qed.

Example suffix_of_traversal :
  upload_suffix (Upload (Some "../../etc/cron.d/job.sh") (Binary "x")) = ".sh"
  /\ upload_suffix (Upload (Some "a.b/c") (Binary "x")) = ".wav".
Proof. split; reflexivity. Qed.

(** ** The alias table and the health report *)

Lemma GGML_MAP_get_in_sound (table : list (string * string)) (k v : string) :
  GGML_MAP_get_in table k = Some v -> In (k, v) table.
Proof.
  induction table as [|[k' v'] table IH]; simpl; [discriminate |].
  destruct (String.eqb_spec k' k) as [->|Hne].
  - intros [= ->]. now left.
  - intros H. right. now apply IH.
Qed.

(** Every alias of the table is a short name with a non-empty file name,
    and the lookup finds it. *)
Lemma known_alias (alias fname : string) :
  In (alias, fname) GGML_MAP ->
  Text.has_char posixpath.sep alias = false
  /\ GGML_MAP_get alias = Some fname
  /\ exists c rest, fname = String c rest.
Proof.
  unfold GGML_MAP. simpl In.
  intros H.
  repeat (destruct H as [[= <- <-] | H];
          [split; [reflexivity | split; [reflexivity | eauto]] |]).
  destruct H.
Qed.

Lemma GGML_MAP_get_in_complete (table : list (string * string)) (k v : string) :
  In (k, v) table -> exists v', GGML_MAP_get_in table k = Some v'.
Proof.
  induction table as [|[k' v'] table IH]; cbn [In GGML_MAP_get_in]; [tauto |].
  intros [[= -> ->] | H].
  - rewrite String.eqb_refl. eauto.
  - destruct (String.eqb k' k); eauto.
Qed.

(** X7: the alias table has no shadowed entry (a lookup finds exactly the
    pairs of the table), and the weights file of every alias is named
    after it: "ggml-", the alias, ".bin". *)
Theorem ggml_names (alias fname : string) :
  (GGML_MAP_get alias = Some fname <-> In (alias, fname) GGML_MAP)
  /\ (In (alias, fname) GGML_MAP -> fname = "ggml-" +:+ alias +:+ ".bin").
Proof.
  split.
  - split; [apply GGML_MAP_get_in_sound | apply known_alias].
  - unfold GGML_MAP. cbn [In]. intros H.
    repeat (destruct H as [[= <- <-] | H]; [reflexivity |]).
    destruct H.
Qed.

Lemma ggml_names_witness : "ggml-large-v3.bin" = "ggml-" +:+ "large-v3" +:+ ".bin".
Proof.
  apply (ggml_names "large-v3" "ggml-large-v3.bin"). cbn. tauto.
Defined.

(** X15: the health report agrees with what a transcription runs: the
    model path it reports is the argument after [-m] of every command of
    [_run], the threads and beam size it reports are the integers printed
    after [-t] and [-bs], and the binary it reports is the first
    candidate the loop tries. *)
Theorem healthz_matches_command (cfg : config) (MODEL_PATH : string)
    (bin_name tmp_path out_prefix : string) (language : option string)
    (task : string) (word_ts : bool) :
  let report := healthz cfg MODEL_PATH in
  let cmd := _run_cmd cfg MODEL_PATH bin_name tmp_path out_prefix language
               task word_ts in
  Py.get report "model_path" JNull = Ok (JStr (nth 2 cmd ""))
  /\ (exists n, Py.get report "threads" JNull = Ok (JInt n)
                /\ nth 10 cmd "" = Text.of_int n)
  /\ (exists n, Py.get report "beam_size" JNull = Ok (JInt n)
                /\ nth 12 cmd "" = Text.of_int n)
  /\ Py.get report "bin" JNull = Ok (JStr (hd "" (candidates cfg)))
  /\ Py.get report "ok" JNull = Ok (JBool true).
Proof.
  cbv zeta. unfold _run_cmd.
  destruct language as [[|c l]|]; destruct (String.eqb task "translate");
    destruct word_ts;
    (split; [reflexivity |];
     split; [exists (THREADS cfg); split; reflexivity |];
     split; [exists (BEAM_SIZE cfg); split; reflexivity |];
     split; reflexivity).
Qed.

(** ** C1: the routes of the application *)

(** C1, as stated, fails: the application also answers
    [GET /healthz]. *)
Lemma C1_healthz_is_routed : ~ single_endpoint api.
Proof.
  intros H.
  destruct (H "GET" "/healthz" healthz_endpoint eq_refl) as [Hm _].
  discriminate Hm.
Qed.

(** C1, amended: the application has six routes, in this order: the four
    that [FastAPI()] sets up by itself (the schema, the two
    documentation pages and the redirect page, each answering GET and
    HEAD), then [GET /healthz] and [POST /transcribe].  A request
    reaches an endpoint exactly when it is one of these. *)
Theorem C1_six_routes (m path : string) (f : endpoint) :
  api = [ Route "/openapi.json" ["GET"; "HEAD"] openapi_endpoint;
          Route "/docs" ["GET"; "HEAD"] swagger_ui_html_endpoint;
          Route "/docs/oauth2-redirect" ["GET"; "HEAD"]
            swagger_ui_redirect_endpoint;
          Route "/redoc" ["GET"; "HEAD"] redoc_html_endpoint;
          Route "/healthz" ["GET"] healthz_endpoint;
          Route "/transcribe" ["POST"] transcribe_endpoint ]
  /\ (dispatch api m path = Some f <->
      ((m = "GET" \/ m = "HEAD")
       /\ ((path = "/openapi.json" /\ f = openapi_endpoint)
           \/ (path = "/docs" /\ f = swagger_ui_html_endpoint)
           \/ (path = "/docs/oauth2-redirect"
               /\ f = swagger_ui_redirect_endpoint)
           \/ (path = "/redoc" /\ f = redoc_html_endpoint)))
      \/ (m = "GET" /\ path = "/healthz" /\ f = healthz_endpoint)
      \/ (m = "POST" /\ path = "/transcribe" /\ f = transcribe_endpoint)).
Proof.
  split; [reflexivity |].
  change api with
    [ Route "/openapi.json" ["GET"; "HEAD"] openapi_endpoint;
      Route "/docs" ["GET"; "HEAD"] swagger_ui_html_endpoint;
      Route "/docs/oauth2-redirect" ["GET"; "HEAD"]
        swagger_ui_redirect_endpoint;
      Route "/redoc" ["GET"; "HEAD"] redoc_html_endpoint;
      Route "/healthz" ["GET"] healthz_endpoint;
      Route "/transcribe" ["POST"] transcribe_endpoint ].
  cbn [dispatch route_path route_methods route_endpoint existsb].
  split.
  - repeat match goal with
           | |- context [String.eqb ?a path] =>
               destruct (String.eqb_spec a path) as [<- | ?]
           end;
      cbn [andb orb];
      repeat match goal with
             | |- context [String.eqb m ?a] =>
                 destruct (String.eqb_spec m a) as [-> | ?]
             end;
      cbn [andb orb]; intros [= <-]; tauto.
  - intros [[[-> | ->] [[-> ->] | [[-> ->] | [[-> ->] | [-> ->]]]]]
           | [(-> & -> & ->) | (-> & -> & ->)]]; reflexivity.
Qed.

(** ** Model path resolution *)

Lemma append_length (a b : string) :
  String.length (a +:+ b) = (String.length a + String.length b)%nat.
Proof.
  induction a as [|c a IH]; [reflexivity |].
  rewrite append_cons. cbn [String.length]. now rewrite IH.
Qed.

(** A joined path is longer than the directory it starts from. *)
Lemma join_longer (a b : string) :
  posixpath.startswith_sep b = false -> b <> "" ->
  (String.length a < String.length (posixpath.join a b))%nat.
Proof.
  intros Hs Hb. unfold posixpath.join. rewrite Hs.
  destruct b as [|c b]; [contradiction |].
  destruct (String.eqb a "" || posixpath.endswith_sep a)%bool;
    rewrite append_length; cbn [String.length]; lia.
Qed.

Lemma known_fname (alias fname : string) :
  In (alias, fname) GGML_MAP ->
  posixpath.startswith_sep fname = false /\ fname <> "".
Proof.
  unfold GGML_MAP. simpl In. intros H.
  repeat (destruct H as [[= <- <-] | H]; [split; [reflexivity | discriminate] |]).
  destruct H.
Qed.

Lemma parents_from_length (name acc p : string) :
  In p (parents_from acc name) ->
  (String.length p < String.length acc + String.length name)%nat.
Proof.
  revert acc. induction name as [|c name IH]; intros acc; cbn [parents_from].
  - intros [].
  - intros H. apply in_app_or in H. destruct H as [H | H].
    + destruct (Ascii.eqb c posixpath.sep && negb (String.eqb acc ""))%bool;
        [| destruct H].
      destruct H as [<- | []]. cbn [String.length]. lia.
    + apply IH in H. rewrite append_length in H.
      cbn [String.length] in *. lia.
Qed.

Lemma ensure_dirs_keep (l : list string) (fs : gmap string node)
    (k : string) (v : node) :
  fs !! k = Some v -> fold_right ensure_dir fs l !! k = Some v.
Proof.
  intros H. induction l as [|p l IH]; [exact H |].
  cbn [fold_right]. unfold ensure_dir at 1.
  destruct (fold_right ensure_dir fs l !! p) eqn:E; [exact IH |].
  rewrite lookup_insert_ne; [exact IH |].
  intros ->. congruence.
Qed.

Lemma ensure_dirs_frame (l : list string) (fs : gmap string node)
    (k : string) :
  ~ In k l -> fold_right ensure_dir fs l !! k = fs !! k.
Proof.
  induction l as [|p l IH]; [reflexivity |].
  cbn [fold_right In]. intros H. unfold ensure_dir at 1.
  destruct (fold_right ensure_dir fs l !! p) eqn:E.
  - apply IH. tauto.
  - rewrite lookup_insert_ne; [apply IH; tauto |].
    intros ->. tauto.
Qed.

Lemma ensure_dirs_short (name : string) (n : nat) (fs : gmap string node)
    (k : string) :
  (String.length name <= String.length k)%nat ->
  fold_right ensure_dir fs (take n (parents name)) !! k = fs !! k.
Proof.
  intros Hlen. apply ensure_dirs_frame. intros Hin.
  assert (Hin' : In k (parents name)).
  { revert Hin. generalize (parents name). clear.
    induction n as [|n IH]; intros [|p l]; cbn [take In]; try tauto.
    intros [-> | H]; [now left | right; now apply IH]. }
  apply parents_from_length in Hin'. cbn [String.length] in Hin'. lia.
Qed.

(** [os.makedirs] goes through exactly when [can_make] holds, and then
    the directory is there; whether it goes through or raises, it runs
    no process, opens no URL, keeps whatever was in the file store, and
    changes no path longer than the name. *)
Lemma makedirs_cases (sys : system) (name : string) (st : state) :
  exists (r : result unit) (st1 : state),
    makedirs sys name st = (r, st1)
    /\ spawned st1 = spawned st
    /\ fetched st1 = fetched st
    /\ temp_count st1 = temp_count st
    /\ (forall k v, files st !! k = Some v -> files st1 !! k = Some v)
    /\ (forall k, (String.length name < String.length k)%nat ->
          files st1 !! k = files st !! k)
    /\ match r with
       | Ok _ => can_make sys name st = true /\ files st1 !! name = Some Dir
       | Raise _ => can_make sys name st = false
       end.
Proof.
  unfold can_make, makedirs.
  destruct (String.eqb name ""); cbn [negb andb];
    [exists (Raise (FileNotFoundError name)), st; repeat split; auto |].
  destruct (files st !! name) as [[|data]|] eqn:Hname.
  - exists (Ok tt), st. repeat split; auto.
  - exists (Raise FileExistsError), st. repeat split; auto.
  - destruct (existsb (is_file (files st)) (parents name)); cbn [negb andb];
      [exists (Raise NotADirectoryError), st; repeat split; auto |].
    destruct (makedirs_error sys name (files st)) as [[e n]|].
    + eexists (Raise e), _. split; [reflexivity |].
      cbn [with_files files spawned fetched temp_count].
      repeat split.
      * intros k v Hk. now apply ensure_dirs_keep.
      * intros k Hlen. apply ensure_dirs_short. lia.
    + eexists (Ok tt), _. split; [reflexivity |].
      cbn [with_files files spawned fetched temp_count].
      repeat split.
      * intros k v Hk. rewrite lookup_insert_ne by congruence.
        now apply ensure_dirs_keep.
      * intros k Hlen. rewrite lookup_insert_ne by (intros ->; lia).
        apply ensure_dirs_frame. intros Hin.
        apply parents_from_length in Hin. cbn [String.length] in Hin. lia.
      * apply lookup_insert_eq.
Qed.

(** The three branches of [resolve_model_path] for an alias of the
    table. *)
Lemma resolve_known (sys : system) (cfg : config) (st : state) (fname : string) :
  In (MODEL_ARG cfg, fname) GGML_MAP ->
  resolve_model_path sys cfg st =
    let path := posixpath.join (MODELS_DIR cfg) fname in
    if path_exists path st then (Ok path, st)
    else match makedirs sys (MODELS_DIR cfg) st with
         | (Raise e, st1) => (Raise e, st1)
         | (Ok _, st1) =>
             match download sys (model_url fname) path st1 with
             | (Ok _, st2) => (Ok path, st2)
             | (Raise e, st2) => (Raise e, st2)
             end
         end.
Proof.
  intros H. destruct (known_alias _ _ H) as (Hsep & Hget & c & rest & ->).
  unfold resolve_model_path. rewrite Hsep, Hget. cbv zeta.
  destruct (path_exists _ st); reflexivity.
Qed.

(** Once the models directory is made, opening the weights file for
    writing fails only where the operating system refuses. *)
Lemma open_after_makedirs (sys : system) (cfg : config) (st st1 : state)
    (fname url : string) :
  In (MODEL_ARG cfg, fname) GGML_MAP ->
  path_exists (posixpath.join (MODELS_DIR cfg) fname) st = false ->
  (forall k, (String.length (MODELS_DIR cfg) < String.length k)%nat ->
     files st1 !! k = files st !! k) ->
  files (log_fetch url st1) !! posixpath.join (MODELS_DIR cfg) fname = None
  /\ open_wb sys (posixpath.join (MODELS_DIR cfg) fname) (log_fetch url st1) =
       match open_error sys (posixpath.join (MODELS_DIR cfg) fname) (files st1)
       with Some e => Raise e | None => Ok tt end.
Proof.
  intros Hin He Hframe.
  destruct (known_fname _ _ Hin) as [Hs Hn].
  assert (Hnone : files st1 !! posixpath.join (MODELS_DIR cfg) fname = None).
  { rewrite Hframe by now apply join_longer.
    unfold path_exists in He.
    now destruct (files st !! posixpath.join (MODELS_DIR cfg) fname). }
  split; [exact Hnone |].
  unfold open_wb. cbn [log_fetch files]. now rewrite Hnone.
Qed.

(** What [resolve_model_path] does for an alias of the table whose file
    is absent, once the models directory can be made. *)
Lemma resolve_downloads (sys : system) (cfg : config) (st : state)
    (fname : string) :
  In (MODEL_ARG cfg, fname) GGML_MAP ->
  path_exists (posixpath.join (MODELS_DIR cfg) fname) st = false ->
  can_make sys (MODELS_DIR cfg) st = true ->
  exists st1,
    makedirs sys (MODELS_DIR cfg) st = (Ok tt, st1)
    /\ spawned st1 = spawned st
    /\ fetched st1 = fetched st
    /\ temp_count st1 = temp_count st
    /\ (forall k v, files st !! k = Some v -> files st1 !! k = Some v)
    /\ files st1 !! posixpath.join (MODELS_DIR cfg) fname = None
    /\ resolve_model_path sys cfg st =
         let path := posixpath.join (MODELS_DIR cfg) fname in
         let st2 := log_fetch (model_url fname) st1 in
         match urlopen sys (model_url fname),
               open_error sys path (files st1) with
         | Unreachable, _ => (Raise URLError, st2)
         | _, Some e => (Raise e, st2)
         | Serves data, None =>
             (Ok path, with_files (<[path := File data]> (files st1)) st2)
         | Breaks partial, None =>
             (Raise ConnectionError,
              with_files (<[path := File partial]> (files st1)) st2)
         end.
Proof.
  intros Hin He Hcan.
  destruct (makedirs_cases sys (MODELS_DIR cfg) st)
    as ([[]|e] & st1 & Hmk & Hsp & Hfe & Htc & Hkeep & Hframe & Hr);
    [| congruence].
  exists st1.
  destruct (open_after_makedirs sys cfg st st1 fname (model_url fname)
              Hin He Hframe) as [Hnone Hopen].
  repeat (split; [assumption |]).
  rewrite (resolve_known sys cfg st fname Hin). cbv zeta.
  rewrite He, Hmk. unfold download. rewrite Hopen.
  destruct (urlopen sys (model_url fname));
    destruct (open_error sys (posixpath.join (MODELS_DIR cfg) fname)
                (files st1)); reflexivity.
Qed.

(** What [resolve_model_path] does for an alias of the table whose file
    is absent when the models directory cannot be made. *)
Lemma resolve_blocked (sys : system) (cfg : config) (st : state)
    (fname : string) :
  In (MODEL_ARG cfg, fname) GGML_MAP ->
  path_exists (posixpath.join (MODELS_DIR cfg) fname) st = false ->
  can_make sys (MODELS_DIR cfg) st = false ->
  exists e st1,
    makedirs sys (MODELS_DIR cfg) st = (Raise e, st1)
    /\ resolve_model_path sys cfg st = (Raise e, st1)
    /\ spawned st1 = spawned st
    /\ fetched st1 = fetched st
    /\ temp_count st1 = temp_count st
    /\ (forall k v, files st !! k = Some v -> files st1 !! k = Some v)
    /\ path_exists (posixpath.join (MODELS_DIR cfg) fname) st1 = false.
Proof.
  intros Hin He Hcan.
  destruct (makedirs_cases sys (MODELS_DIR cfg) st)
    as ([[]|e] & st1 & Hmk & Hsp & Hfe & Htc & Hkeep & Hframe & Hr);
    [destruct Hr; congruence |].
  exists e, st1. split; [exact Hmk |].
  split; [rewrite (resolve_known sys cfg st fname Hin); cbv zeta;
          now rewrite He, Hmk |].
  repeat (split; [assumption |]).
  destruct (known_fname _ _ Hin) as [Hs Hn].
  unfold path_exists in *. rewrite Hframe by now apply join_longer.
  exact He.
Qed.

(** C5: for a known alias, when a file is at the path under the models
    directory, [resolve_model_path] returns that path and leaves the
    state (files and network log) as it was.  When none is there it
    first makes the models directory; if that fails it raises, with
    nothing fetched and still no file at the path; otherwise it opens
    the URL of
    the weights once, and when the weights arrive and the file can be
    written it returns the path, the file holds the weights, and the
    next call returns the path without a download; when there is no
    response it raises and no file is at the path.  A URL is opened only
    when no file was there. *)
Theorem C5_one_time_download (sys : system) (cfg : config) (st : state)
    (fname : string) (Hknown : In (MODEL_ARG cfg, fname) GGML_MAP) :
  let dir := MODELS_DIR cfg in
  let path := posixpath.join dir fname in
  let url := model_url fname in
  let made := snd (makedirs sys dir st) in
  let r := resolve_model_path sys cfg st in
  (path_exists path st = true -> r = (Ok path, st))
  /\ (path_exists path st = false ->
      (can_make sys dir st = false ->
       exists e, fst r = Raise e
                 /\ fetched (snd r) = fetched st
                 /\ path_exists path (snd r) = false)
      /\ (can_make sys dir st = true ->
          fetched (snd r) = fetched st ++ [url]
          /\ (forall data,
                urlopen sys url = Serves data ->
                open_error sys path (files made) = None ->
                fst r = Ok path
                /\ files (snd r) = <[path := File data]> (files made)
                /\ resolve_model_path sys cfg (snd r) = (Ok path, snd r))
          /\ (urlopen sys url = Unreachable ->
              fst r = Raise URLError /\ path_exists path (snd r) = false)))
  /\ (fetched (snd r) <> fetched st -> path_exists path st = false).
Proof.
  cbv zeta. split; [| split].
  - intros He. rewrite (resolve_known sys cfg st fname Hknown). cbv zeta.
    now rewrite He.
  - intros He. split.
    + intros Hno.
      destruct (resolve_blocked sys cfg st fname Hknown He Hno)
        as (e & st1 & _ & -> & _ & Hfe & _ & _ & Habs).
      exists e. auto.
    + intros Hcan.
      destruct (resolve_downloads sys cfg st fname Hknown He Hcan)
        as (st1 & Hmk & _ & Hfe & _ & _ & Hnone & ->).
      cbv zeta. rewrite Hmk. cbn [snd]. split; [| split].
      * destruct (urlopen sys (model_url fname));
          destruct (open_error sys (posixpath.join (MODELS_DIR cfg) fname)
                      (files st1));
          cbn [snd log_fetch with_files fetched]; now rewrite Hfe.
      * intros data -> ->. cbn [fst snd with_files log_fetch files].
        split; [reflexivity | split; [reflexivity |]].
        rewrite (resolve_known sys cfg _ fname Hknown). cbv zeta.
        unfold path_exists at 1. cbn [files with_files].
        now rewrite lookup_insert_eq.
      * intros ->. split; [reflexivity |].
        unfold path_exists. cbn [snd log_fetch files]. now rewrite Hnone.
  - rewrite (resolve_known sys cfg st fname Hknown). cbv zeta.
    destruct (path_exists _ st); [| reflexivity].
    intros H. now contradiction H.
Qed.

Lemma C5_one_time_download_witness :
  fst (resolve_model_path online_system default_config empty_state)
  = Ok "/models/ggml-base.en.bin"
  /\ fetched (snd (resolve_model_path online_system default_config empty_state))
     = [model_url "ggml-base.en.bin"].
Proof.
  assert (Hknown : In (MODEL_ARG default_config, "ggml-base.en.bin") GGML_MAP)
    by (cbn; tauto).
  destruct (C5_one_time_download online_system default_config empty_state
              "ggml-base.en.bin" Hknown) as (_ & H & _).
  destruct (H eq_refl) as [_ H2].
  destruct (H2 eq_refl) as (Hf & H3 & _).
  destruct (H3 (Binary "ggml weights") eq_refl eq_refl) as [H4 _].
  split; [exact H4 | exact Hf].
Defined.

(** C6: an alias of the table resolves to its weights-file name joined
    to the models directory: no other path is ever returned for it, and
    that path is returned when a file is there, and when none is there
    and the models directory can be made, the weights arrive and the
    file can be written.  A short name that is not in the table raises
    [ValueError] naming it.  A value with a path separator is taken as a
    file path: it is returned when something is there, and
    [FileNotFoundError] is raised when nothing is; neither changes the
    state. *)
Theorem C6_alias_resolution (sys : system) (cfg : config) (st : state) :
  let arg := MODEL_ARG cfg in
  let r := resolve_model_path sys cfg st in
  (forall fname, In (arg, fname) GGML_MAP ->
     let path := posixpath.join (MODELS_DIR cfg) fname in
     (forall p, fst r = Ok p -> p = path)
     /\ (path_exists path st = true -> fst r = Ok path)
     /\ (path_exists path st = false ->
         can_make sys (MODELS_DIR cfg) st = true ->
         forall data,
           urlopen sys (model_url fname) = Serves data ->
           open_error sys path
             (files (snd (makedirs sys (MODELS_DIR cfg) st))) = None ->
           fst r = Ok path))
  /\ (Text.has_char posixpath.sep arg = false ->
      (forall fname, ~ In (arg, fname) GGML_MAP) ->
      r = (Raise (ValueError ("Unknown model alias: " +:+ arg)), st))
  /\ (Text.has_char posixpath.sep arg = true ->
      (path_exists arg st = true -> r = (Ok arg, st))
      /\ (path_exists arg st = false ->
          r = (Raise (FileNotFoundError ("Model not found at " +:+ arg)), st))).
Proof.
  cbv zeta. split; [| split].
  - intros fname Hknown.
    destruct (path_exists (posixpath.join (MODELS_DIR cfg) fname) st) eqn:He.
    + rewrite (resolve_known sys cfg st fname Hknown). cbv zeta. rewrite He.
      cbn [fst]. split; [now intros p [= <-] |]. split; [reflexivity |].
      discriminate.
    + split; [| split; [discriminate |]].
      * destruct (can_make sys (MODELS_DIR cfg) st) eqn:Hcan.
        -- destruct (resolve_downloads sys cfg st fname Hknown He Hcan)
             as (st1 & _ & _ & _ & _ & _ & _ & ->).
           cbv zeta.
           destruct (urlopen sys (model_url fname));
             destruct (open_error sys (posixpath.join (MODELS_DIR cfg) fname)
                         (files st1)); cbn [fst];
             intros p [= <-]; reflexivity.
        -- destruct (resolve_blocked sys cfg st fname Hknown He Hcan)
             as (e & st1 & _ & -> & _). discriminate.
      * intros _ Hcan data Hu Ho.
        destruct (resolve_downloads sys cfg st fname Hknown He Hcan)
          as (st1 & Hmk & _ & _ & _ & _ & _ & ->).
        cbv zeta. rewrite Hmk in Ho. cbn [snd] in Ho.
        now rewrite Hu, Ho.
  - intros Hsep Hnot. unfold resolve_model_path. rewrite Hsep.
    destruct (GGML_MAP_get (MODEL_ARG cfg)) as [fname|] eqn:Hget; [| reflexivity].
    apply GGML_MAP_get_in_sound in Hget. now apply Hnot in Hget.
  - intros Hsep. unfold resolve_model_path. rewrite Hsep.
    split; intros ->; reflexivity.
Qed.

(** C6 on the three kinds of argument. *)
Lemma C6_alias_resolution_witness :
  fst (resolve_model_path online_system default_config empty_state)
  = Ok "/models/ggml-base.en.bin"
  /\ resolve_model_path bare_system
       {| MODELS_DIR := "/models"; MODEL_ARG := "huge"; THREADS := 4;
          BEAM_SIZE := 5; WHISPER_BIN := "whisper-cli" |} empty_state
     = (Raise (ValueError "Unknown model alias: huge"), empty_state)
  /\ resolve_model_path bare_system
       {| MODELS_DIR := "/models"; MODEL_ARG := "/opt/m.bin"; THREADS := 4;
          BEAM_SIZE := 5; WHISPER_BIN := "whisper-cli" |} empty_state
     = (Raise (FileNotFoundError "Model not found at /opt/m.bin"), empty_state).
Proof.
  split; [| split].
  - destruct (C6_alias_resolution online_system default_config empty_state)
      as (H & _ & _).
    destruct (H "ggml-base.en.bin") as (_ & _ & H3); [simpl; tauto |].
    apply (H3 eq_refl eq_refl (Binary "ggml weights")); reflexivity.
  - destruct (C6_alias_resolution bare_system
                {| MODELS_DIR := "/models"; MODEL_ARG := "huge"; THREADS := 4;
                   BEAM_SIZE := 5; WHISPER_BIN := "whisper-cli" |} empty_state)
      as (_ & H & _).
    apply H; [reflexivity |].
    intros fname Hin. simpl in Hin.
    repeat (destruct Hin as [Hin | Hin]; [discriminate Hin |]).
    exact Hin.
  - destruct (C6_alias_resolution bare_system
                {| MODELS_DIR := "/models"; MODEL_ARG := "/opt/m.bin";
                   THREADS := 4; BEAM_SIZE := 5;
                   WHISPER_BIN := "whisper-cli" |} empty_state)
      as (_ & _ & H).
    apply H; reflexivity.
Defined.

(** The argument of [resolve_model_path] is a path, a short name that is
    not in the table, or an alias of the table. *)
Lemma argument_kinds (cfg : config) :
  Text.has_char posixpath.sep (MODEL_ARG cfg) = true
  \/ (Text.has_char posixpath.sep (MODEL_ARG cfg) = false
      /\ forall fname, ~ In (MODEL_ARG cfg, fname) GGML_MAP)
  \/ (Text.has_char posixpath.sep (MODEL_ARG cfg) = false
      /\ exists fname, In (MODEL_ARG cfg, fname) GGML_MAP).
Proof.
  destruct (Text.has_char posixpath.sep (MODEL_ARG cfg)); [now left | right].
  destruct (GGML_MAP_get (MODEL_ARG cfg)) as [fname|] eqn:Hget.
  - right. split; [reflexivity |]. exists fname.
    now apply GGML_MAP_get_in_sound.
  - left. split; [reflexivity |]. intros fname Hin.
    destruct (GGML_MAP_get_in_complete _ _ _ Hin) as [v Hv].
    unfold GGML_MAP_get in Hget. congruence.
Qed.

(** X5: when [resolve_model_path] returns a path, a file is there in the
    state it leaves, no process was run on the way, and resolving again
    from that state returns the same path and changes nothing (no second
    download). *)
Theorem resolve_settles (sys : system) (cfg : config) (st st' : state)
    (path : string) :
  resolve_model_path sys cfg st = (Ok path, st') ->
  path_exists path st' = true
  /\ spawned st' = spawned st
  /\ temp_count st' = temp_count st
  /\ resolve_model_path sys cfg st' = (Ok path, st').
Proof.
  destruct (argument_kinds cfg) as [Hsep | [[Hsep Hnot] | (Hsep & fname & Hin)]].
  - unfold resolve_model_path. rewrite Hsep.
    destruct (path_exists (MODEL_ARG cfg) st) eqn:He; cbn [negb];
      [| discriminate].
    intros [= <- <-]. now rewrite He.
  - unfold resolve_model_path. rewrite Hsep.
    destruct (GGML_MAP_get (MODEL_ARG cfg)) as [fname|] eqn:Hget;
      [| discriminate].
    apply GGML_MAP_get_in_sound in Hget. now apply Hnot in Hget.
  - destruct (path_exists (posixpath.join (MODELS_DIR cfg) fname) st) eqn:He.
    + rewrite (resolve_known sys cfg st fname Hin). cbv zeta. rewrite He.
      intros [= <- <-].
      rewrite (resolve_known sys cfg st fname Hin). cbv zeta. now rewrite He.
    + destruct (can_make sys (MODELS_DIR cfg) st) eqn:Hcan.
      * destruct (resolve_downloads sys cfg st fname Hin He Hcan)
          as (st1 & _ & Hsp & _ & Htc & _ & _ & ->).
        cbv zeta.
        destruct (urlopen sys (model_url fname)) as [|data|partial];
          destruct (open_error sys (posixpath.join (MODELS_DIR cfg) fname) (files st1)); try discriminate.
        intros [= <- <-].
        cbn [with_files log_fetch spawned temp_count].
        assert (Hthere :
                  path_exists (posixpath.join (MODELS_DIR cfg) fname)
                    (with_files
                       (<[posixpath.join (MODELS_DIR cfg) fname := File data]>
                          (files st1))
                       (log_fetch (model_url fname) st1)) = true).
        { unfold path_exists. cbn [with_files files].
          now rewrite lookup_insert_eq. }
        split; [exact Hthere |]. split; [exact Hsp |]. split; [exact Htc |].
        rewrite (resolve_known sys cfg _ fname Hin). cbv zeta.
        now rewrite Hthere.
      * destruct (resolve_blocked sys cfg st fname Hin He Hcan)
          as (e & st1 & _ & -> & _). discriminate.
Qed.

Lemma resolve_settles_witness :
  path_exists "/models/ggml-base.en.bin"
    (snd (resolve_model_path online_system default_config empty_state)) = true.
Proof.
  apply (resolve_settles online_system default_config empty_state
           (snd (resolve_model_path online_system default_config empty_state))
           "/models/ggml-base.en.bin").
  reflexivity.
Defined.

(** With [MODELS_DIR] empty and no weights file in the working
    directory, [os.makedirs] refuses the empty name and no URL is
    opened. *)
Example resolve_at_empty_dir :
  resolve_model_path online_system here_config empty_state
  = (Raise (FileNotFoundError ""), empty_state).
Proof. reflexivity. Qed.

(** X6: when [resolve_model_path] raises, no process was run, no
    temporary name drawn, and whatever was in the file store is still
    there.  Either the state is untouched: the argument is a path with
    nothing there ([FileNotFoundError]) or a short name that is not in
    the table ([ValueError]).  Or the argument is an alias whose file is
    absent, and then: the models directory could not be made, the
    exception and the state are those of [os.makedirs], no URL was
    opened and no file is at the path; or the directory was made and the
    URL of the alias was opened, once: there was no response
    ([URLError]) or the file could not be opened for writing, and no
    file is at the path; or the transfer broke off, and what had arrived
    is at the path. *)
Theorem resolve_failure (sys : system) (cfg : config) (st st' : state)
    (e : exn) :
  resolve_model_path sys cfg st = (Raise e, st') ->
  spawned st' = spawned st
  /\ temp_count st' = temp_count st
  /\ (forall k v, files st !! k = Some v -> files st' !! k = Some v)
  /\ ((st' = st
       /\ ((e = FileNotFoundError ("Model not found at " +:+ MODEL_ARG cfg)
            /\ Text.has_char posixpath.sep (MODEL_ARG cfg) = true
            /\ path_exists (MODEL_ARG cfg) st = false)
           \/ (e = ValueError ("Unknown model alias: " +:+ MODEL_ARG cfg)
               /\ Text.has_char posixpath.sep (MODEL_ARG cfg) = false
               /\ forall fname, ~ In (MODEL_ARG cfg, fname) GGML_MAP)))
      \/ (exists fname,
            let path := posixpath.join (MODELS_DIR cfg) fname in
            let url := model_url fname in
            In (MODEL_ARG cfg, fname) GGML_MAP
            /\ path_exists path st = false
            /\ ((can_make sys (MODELS_DIR cfg) st = false
                 /\ makedirs sys (MODELS_DIR cfg) st = (Raise e, st')
                 /\ fetched st' = fetched st
                 /\ path_exists path st' = false)
                \/ (can_make sys (MODELS_DIR cfg) st = true
                    /\ fetched st' = fetched st ++ [url]
                    /\ ((e = URLError /\ urlopen sys url = Unreachable
                         /\ path_exists path st' = false)
                        \/ (urlopen sys url <> Unreachable
                            /\ open_error sys path
                                 (files (snd (makedirs sys (MODELS_DIR cfg)
                                                st)))
                               = Some e
                            /\ path_exists path st' = false)
                        \/ (exists partial,
                              urlopen sys url = Breaks partial
                              /\ e = ConnectionError
                              /\ files st' !! path
                                 = Some (File partial))))))).
Proof.
  destruct (argument_kinds cfg) as [Hsep | [[Hsep Hnot] | (Hsep & fname & Hin)]].
  - unfold resolve_model_path. rewrite Hsep.
    destruct (path_exists (MODEL_ARG cfg) st) eqn:He; cbn [negb];
      [discriminate |].
    intros [= <- <-]. repeat (split; [auto |]). left. split; [reflexivity |].
    left. auto.
  - unfold resolve_model_path. rewrite Hsep.
    destruct (GGML_MAP_get (MODEL_ARG cfg)) as [fname|] eqn:Hget.
    + apply GGML_MAP_get_in_sound in Hget. now apply Hnot in Hget.
    + intros [= <- <-]. repeat (split; [auto |]). left.
      split; [reflexivity |]. right. auto.
  - destruct (path_exists (posixpath.join (MODELS_DIR cfg) fname) st) eqn:He.
    { rewrite (resolve_known sys cfg st fname Hin). cbv zeta. rewrite He.
      discriminate. }
    destruct (can_make sys (MODELS_DIR cfg) st) eqn:Hcan.
    + destruct (resolve_downloads sys cfg st fname Hin He Hcan)
        as (st1 & Hmk & Hsp & Hfe & Htc & Hkeep & Hnone & ->).
      cbv zeta. rewrite Hmk. cbn [snd].
      assert (Habsent :
                path_exists (posixpath.join (MODELS_DIR cfg) fname)
                  (log_fetch (model_url fname) st1) = false).
      { unfold path_exists. cbn [log_fetch files]. now rewrite Hnone. }
      destruct (urlopen sys (model_url fname)) as [|data|partial] eqn:Hu;
        destruct (open_error sys (posixpath.join (MODELS_DIR cfg) fname)
                    (files st1)) as [e1|] eqn:Ho;
        intros [= <- <-];
        cbn [with_files log_fetch spawned temp_count files fetched];
        (split; [exact Hsp |]); (split; [exact Htc |]).
      1, 2, 3, 4:
        (split; [exact Hkeep |]); right; exists fname; cbv zeta;
        (split; [exact Hin |]); (split; [exact He |]); right;
        (split; [reflexivity |]); (split; [now rewrite Hfe |]).
      * left. auto.
      * left. auto.
      * right. left. split; [rewrite Hu; discriminate | auto].
      * right. left. split; [rewrite Hu; discriminate | auto].
      * split.
        { intros k v Hk. rewrite lookup_insert_ne; [now apply Hkeep |].
          intros <-. apply Hkeep in Hk. congruence. }
        right. exists fname. cbv zeta.
        split; [exact Hin |]. split; [exact He |]. right.
        split; [reflexivity |]. split; [now rewrite Hfe |].
        right. right. exists partial.
        split; [exact Hu |]. split; [reflexivity |].
        apply lookup_insert_eq.
    + destruct (resolve_blocked sys cfg st fname Hin He Hcan)
        as (e0 & st1 & Hmk & -> & Hsp & Hfe & Htc & Hkeep & Habs).
      intros [= <- <-]. repeat (split; [assumption |]).
      right. exists fname. cbv zeta.
      split; [exact Hin |]. split; [exact He |]. left. auto.
Qed.

Lemma resolve_failure_witness :
  files (snd (resolve_model_path bare_system default_config empty_state))
    !! "/models/ggml-base.en.bin" = None
  /\ temp_count (snd (resolve_model_path bare_system default_config empty_state))
     = 0%nat.
Proof.
  destruct (resolve_failure bare_system default_config empty_state
              (snd (resolve_model_path bare_system default_config empty_state))
              URLError eq_refl) as (_ & Ht & _).
  split; [reflexivity | exact Ht].
Defined.

(** X16: when the transfer of the weights breaks off after the file was
    opened, [resolve_model_path] raises and leaves what had arrived at
    the path; the next call finds a file there, returns the path and
    downloads nothing, so the partial file is taken for the model. *)
Theorem partial_download_kept (sys : system) (cfg : config) (st : state)
    (fname : string) (partial : filedata) :
  let path := posixpath.join (MODELS_DIR cfg) fname in
  let r := resolve_model_path sys cfg st in
  In (MODEL_ARG cfg, fname) GGML_MAP ->
  path_exists path st = false ->
  can_make sys (MODELS_DIR cfg) st = true ->
  urlopen sys (model_url fname) = Breaks partial ->
  open_error sys path (files (snd (makedirs sys (MODELS_DIR cfg) st))) = None ->
  fst r = Raise ConnectionError
  /\ files (snd r) !! path = Some (File partial)
  /\ resolve_model_path sys cfg (snd r) = (Ok path, snd r).
Proof.
  cbv zeta. intros Hin He Hcan Hu Ho.
  destruct (resolve_downloads sys cfg st fname Hin He Hcan)
    as (st1 & Hmk & _ & _ & _ & _ & _ & ->).
  cbv zeta. rewrite Hmk in Ho. cbn [snd] in Ho. rewrite Hu, Ho.
  cbn [fst snd with_files files].
  split; [reflexivity |]. split; [apply lookup_insert_eq |].
  rewrite (resolve_known sys cfg _ fname Hin). cbv zeta.
  unfold path_exists at 1. cbn [files with_files].
  now rewrite lookup_insert_eq.
Qed.

Lemma partial_download_kept_witness :
  fst (resolve_model_path flaky_system default_config empty_state)
  = Raise ConnectionError
  /\ fst (resolve_model_path flaky_system default_config
            (snd (resolve_model_path flaky_system default_config empty_state)))
     = Ok "/models/ggml-base.en.bin".
Proof.
  assert (Hin : In (MODEL_ARG default_config, "ggml-base.en.bin") GGML_MAP)
    by (cbn; tauto).
  destruct (partial_download_kept flaky_system default_config empty_state
              "ggml-base.en.bin" (Binary "ggml w") Hin eq_refl eq_refl
              eq_refl eq_refl) as (H1 & _ & H3).
  split; [exact H1 |]. now rewrite H3.
Defined.

(** ** C7: the command line *)

(** C7: the command [_run] builds and passes to [subprocess.run] is the
    binary name, [-m] model path, [-f] input file, [-oj], [-osrt], [-of]
    output prefix, [-t] threads, [-bs] beam size, followed by [-l] and the
    language iff a language was supplied (a non-empty one; an empty form
    field counts as none), by [-tr] iff the task is "translate", and by
    [-owts] iff word timestamps were requested.  That command is what
    the one call of [subprocess.run] is made with, and what [_run]
    returns whenever it returns. *)
Theorem C7_command_line (sys : system) (cfg : config) (MODEL_PATH : string)
    (bin_name tmp_path out_prefix : string) (language : option string)
    (task : string) (word_ts : bool) (st : state) :
  let r := _run sys cfg MODEL_PATH bin_name tmp_path out_prefix
             language task word_ts st in
  let cmd :=
    [ bin_name; "-m"; MODEL_PATH; "-f"; tmp_path; "-oj"; "-osrt";
      "-of"; out_prefix; "-t"; Text.of_int (THREADS cfg);
      "-bs"; Text.of_int (BEAM_SIZE cfg) ]
    ++ (match language with
        | Some l => if String.eqb l "" then [] else ["-l"; l]
        | None => []
        end)
    ++ (if String.eqb task "translate" then ["-tr"] else [])
    ++ (if word_ts then ["-owts"] else []) in
  fst r = match exec sys cmd (files st) with
          | Completes proc _ => Ok (cmd, Some proc, None)
          | NotFound => Ok (cmd, None, Some (FileNotFoundError bin_name))
          | Aborts e _ => Raise (run_error_exn e)
          end
  /\ spawned (snd r)
     = spawned st ++ [(cmd, call_of (exec sys cmd (files st)))].
Proof.
  cbv zeta.
  assert (Hcmd : _run_cmd cfg MODEL_PATH bin_name tmp_path out_prefix
                   language task word_ts
                 = [ bin_name; "-m"; MODEL_PATH; "-f"; tmp_path; "-oj"; "-osrt";
                     "-of"; out_prefix; "-t"; Text.of_int (THREADS cfg);
                     "-bs"; Text.of_int (BEAM_SIZE cfg) ]
                   ++ (match language with
                       | Some l => if String.eqb l "" then [] else ["-l"; l]
                       | None => []
                       end)
                   ++ (if String.eqb task "translate" then ["-tr"] else [])
                   ++ (if word_ts then ["-owts"] else [])).
  { unfold _run_cmd.
    destruct language as [[|c l]|]; destruct (String.eqb task "translate");
      destruct word_ts; reflexivity. }
  unfold _run. rewrite Hcmd.
  destruct (exec sys _ (files st)) as [proc fs| |e fs]; split; reflexivity.
Qed.

(** ** The loop over the candidates *)


Section Loop.

Variable sys : system.
Variable cfg : config.
Variable MODEL_PATH : string.
Variables tmp_path out_prefix : string.
Variable language : option string.
Variable task : string.
Variable word_ts : bool.

Local Abbreviation cmd_of :=
  (fun c : string =>
     _run_cmd cfg MODEL_PATH c tmp_path out_prefix language task word_ts).

Local Abbreviation loop :=
  (fun cs : list string =>
     try_candidates sys cfg MODEL_PATH cs tmp_path out_prefix language task
       word_ts).

(** One turn of the loop: the call is logged, and the loop goes on or
    ends with it. *)
Lemma loop_step (c : string) (rest : list string) (last : option attempt)
    (st : state) :
  let k := call_of (exec sys (cmd_of c) (files st)) in
  let st1 := with_files (files_after (exec sys (cmd_of c) (files st)) (files st))
               (log_spawn (cmd_of c) k st) in
  loop (c :: rest) last st =
    if passes k then loop rest (Some (attempt_of cmd_of c k)) st1
    else loop_result cmd_of c k st1.
Proof.
  cbv beta zeta. cbn [try_candidates]. unfold _run.
  destruct (exec sys (cmd_of c) (files st)) as [p fs| |e fs];
    cbn [call_of files_after passes loop_result attempt_of].
  - destruct (deprecation_failure p); reflexivity.
  - reflexivity.
  - reflexivity.
Qed.

(** The shape of every run of the loop over a non-empty list: some
    calls after which the loop went on, then one last call, for the
    candidate at that position, with which the loop ends; that call
    raised or stopped the loop unless the candidates are used up. *)
Lemma loop_trace (cs : list string) :
  cs <> [] ->
  forall (last : option attempt) (st : state),
  exists (pre : list entry) (c : string) (k : call) (st' : state),
    loop cs last st = loop_result cmd_of c k st'
    /\ spawned st' = spawned st ++ pre ++ [(cmd_of c, k)]
    /\ fetched st' = fetched st /\ temp_count st' = temp_count st
    /\ cs !! length pre = Some c
    /\ Forall (fun x : entry => passes (snd x) = true) pre
    /\ map fst (pre ++ [(cmd_of c, k)]) = take (S (length pre)) (map cmd_of cs)
    /\ ((S (length pre) < length cs)%nat -> passes k = false).
Proof.
  induction cs as [|c rest IH]; [congruence |]. intros _ last st.
  rewrite loop_step. cbv zeta.
  set (k := call_of (exec sys (cmd_of c) (files st))).
  set (st1 := with_files _ _).
  assert (Hlog : spawned st1 = spawned st ++ [(cmd_of c, k)]) by reflexivity.
  assert (Hf : fetched st1 = fetched st) by reflexivity.
  assert (Ht : temp_count st1 = temp_count st) by reflexivity.
  clearbody st1.
  destruct (passes k) eqn:Hp.
  - destruct rest as [|c' rest'].
    + exists [], c, k, st1. cbn [length app map try_candidates].
      repeat split; auto.
      * destruct k; [reflexivity | reflexivity | discriminate Hp].
      * cbn. lia.
    + destruct (IH ltac:(congruence) (Some (attempt_of cmd_of c k)) st1)
        as (pre & c1 & k1 & st' & Hl & Hlog' & Hf' & Ht' & Hat & Hpre & Hmap
            & Hstop).
      exists ((cmd_of c, k) :: pre), c1, k1, st'.
      split; [exact Hl |].
      split; [rewrite Hlog', Hlog, <- app_assoc; reflexivity |].
      split; [congruence |]. split; [congruence |].
      split; [exact Hat |].
      split; [constructor; [exact Hp | exact Hpre] |].
      split; [cbn [app map length]; rewrite Hmap; reflexivity |].
      intros Hlt. apply Hstop. cbn [length] in Hlt |- *. lia.
  - exists [], c, k, st1. cbn [length app map].
    repeat split; auto.
Qed.


End Loop.

(** ** Temporary names and the stored upload *)







(** The state [store_upload] leaves: the upload under the input path,
    the output directory, two names drawn, nothing else changed. *)
Lemma stored_state (sys : system) (f : upload) (st : state) :
  files (stored sys f st)
  = <[output_dir sys f st := Dir]>
      (<[input_path sys f st := File (body f)]> (files st))
  /\ spawned (stored sys f st) = spawned st
  /\ fetched (stored sys f st) = fetched st
  /\ temp_count (stored sys f st) = S (S (temp_count st))
  /\ output_prefix sys f st = posixpath.join (output_dir sys f st) "out".
Proof.
  unfold stored, input_path, output_dir, output_prefix, store_upload,
    NamedTemporaryFile, mkdtemp, copyfileobj.
  cbn [fst snd files spawned fetched temp_count with_files draw_name].
  now rewrite insert_insert_eq.
Qed.


(** [os.unlink] inside [try ... except Exception: pass]: a regular file
    is removed, anything else stays as it is. *)
Lemma unlink_frame (path : string) (st : state) :
  files (snd (unlink path st))
  = match files st !! path with
    | Some (File _) => delete path (files st)
    | _ => files st
    end
  /\ spawned (snd (unlink path st)) = spawned st
  /\ fetched (snd (unlink path st)) = fetched st
  /\ temp_count (snd (unlink path st)) = temp_count st.
Proof.
  unfold unlink. destruct (files st !! path) as [[|data]|]; auto.
Qed.


(** ** The handler as a whole *)

Lemma transcribe_unfold (sys : system) (cfg : config) (MODEL_PATH : string)
    (req : form) (st : state) :
  transcribe sys cfg MODEL_PATH req st
  = match try_candidates sys cfg MODEL_PATH (candidates cfg)
            (input_path sys (file req) st) (output_prefix sys (file req) st)
            (language req) (task req) (word_ts req) None
            (stored sys (file req) st) with
    | (Raise e, st1) => (Raise e, st1)
    | (Ok last0, st1) =>
        let st2 := snd (unlink (input_path sys (file req) st) st1) in
        (transcribe_respond sys (candidates cfg)
           (output_prefix sys (file req) st) (word_ts req) last0 st2, st2)
    end.
Proof.
  unfold transcribe, input_path, output_prefix, stored.
  destruct (store_upload sys (file req) st) as [[tmp out] st1].
  cbn [fst snd].
  destruct (try_candidates _ _ _ _ _ _ _ _ _ _ _) as [[last0|e] st2];
    reflexivity.
Qed.

(** Every request runs the loop; when the last call raised, the handler
    raises with the state of that moment; otherwise it unlinks the input
    and builds the response from the tuple of the last call. *)
Lemma transcribe_run (sys : system) (cfg : config) (MODEL_PATH : string)
    (req : form) (st : state) :
  let tmp_path := input_path sys (file req) st in
  let out_prefix := output_prefix sys (file req) st in
  let cmd_of := request_cmd sys cfg MODEL_PATH req st in
  exists (pre : list entry) (c : string) (k : call) (st4 : state),
    try_candidates sys cfg MODEL_PATH (candidates cfg) tmp_path out_prefix
      (language req) (task req) (word_ts req) None (stored sys (file req) st)
    = loop_result cmd_of c k st4
    /\ transcribe sys cfg MODEL_PATH req st
       = match k with
         | Failed e => (Raise (run_error_exn e), st4)
         | _ =>
             (transcribe_respond sys (candidates cfg) out_prefix (word_ts req)
                (Some (attempt_of cmd_of c k)) (snd (unlink tmp_path st4)),
              snd (unlink tmp_path st4))
         end
    /\ spawned st4 = spawned st ++ pre ++ [(cmd_of c, k)]
    /\ fetched st4 = fetched st
    /\ temp_count st4 = S (S (temp_count st))
    /\ candidates cfg !! length pre = Some c
    /\ Forall (fun x : entry => passes (snd x) = true) pre
    /\ map fst (pre ++ [(cmd_of c, k)])
       = take (S (length pre)) (map cmd_of (candidates cfg))
    /\ ((S (length pre) < 3)%nat -> passes k = false).
Proof.
  cbv zeta.
  destruct (loop_trace sys cfg MODEL_PATH (input_path sys (file req) st)
              (output_prefix sys (file req) st) (language req) (task req)
              (word_ts req) (candidates cfg) ltac:(discriminate) None
              (stored sys (file req) st))
    as (pre & c & k & st4 & Hl & Hlog & Hf & Ht & Hat & Hpre & Hmap & Hstop).
  destruct (stored_state sys (file req) st) as (_ & Hsp & Hfe & Htc & _).
  exists pre, c, k, st4.
  split; [exact Hl |].
  split.
  { rewrite transcribe_unfold.
    unfold request_cmd. rewrite Hl. destruct k; reflexivity. }
  split; [now rewrite Hlog, Hsp |].
  split; [now rewrite Hf, Hfe |].
  split; [now rewrite Ht, Htc |].
  repeat split; assumption.
Qed.


(** The state a request ends in has the log the loop left. *)
Lemma transcribe_log (sys : system) (cfg : config) (MODEL_PATH : string)
    (req : form) (st : state) :
  exists (pre : list entry) (c : string) (k : call),
    let cmd_of := request_cmd sys cfg MODEL_PATH req st in
    spawned (snd (transcribe sys cfg MODEL_PATH req st))
    = spawned st ++ pre ++ [(cmd_of c, k)]
    /\ candidates cfg !! length pre = Some c
    /\ Forall (fun x : entry => passes (snd x) = true) pre
    /\ map fst (pre ++ [(cmd_of c, k)])
       = take (S (length pre)) (map cmd_of (candidates cfg))
    /\ ((S (length pre) < 3)%nat -> passes k = false)
    /\ fst (transcribe sys cfg MODEL_PATH req st)
       = match k with
         | Failed e => Raise (run_error_exn e)
         | _ =>
             transcribe_respond sys (candidates cfg)
               (output_prefix sys (file req) st) (word_ts req)
               (Some (attempt_of cmd_of c k))
               (snd (transcribe sys cfg MODEL_PATH req st))
         end.
Proof.
  destruct (transcribe_run sys cfg MODEL_PATH req st)
    as (pre & c & k & st4 & _ & Htr & Hlog & _ & _ & Hat & Hpre & Hmap & Hstop).
  cbv zeta in *. exists pre, c, k. cbv zeta.
  destruct (unlink_frame (input_path sys (file req) st) st4) as (_ & Hsp & _).
  split; [| repeat (split; [assumption |])].
  - rewrite Htr. destruct k; cbn [snd]; congruence.
  - rewrite Htr. destruct k; reflexivity.
Qed.

(** The command line of a logged call is that of the candidate at its
    position. *)
Lemma logged_command {A : Type} (cmd_of : A -> list string) (cs : list A)
    (new : list entry) (n i : nat) (cmd : list string) (k : call) :
  map fst new = take n (map cmd_of cs) ->
  new !! i = Some (cmd, k) ->
  exists c, cs !! i = Some c /\ cmd = cmd_of c.
Proof.
  revert cs n i. induction new as [|e new IH]; intros cs n i Hmap Hi;
    [discriminate |].
  destruct n as [|n]; [destruct cs; discriminate |].
  destruct cs as [|c cs]; [discriminate |].
  cbn [map take] in Hmap. injection Hmap as He Hmap.
  destruct i as [|i].
  - injection Hi as ->. exists c. split; [reflexivity | exact He].
  - apply (IH cs n i Hmap Hi).
Qed.

(** ** C2: the order and the end of the tries *)



(** ** C8: a failure that mentions a deprecation *)

(** The response to a run that exited with a non-zero code. *)
Lemma respond_failed (sys : system) (cfg : config) (out_prefix : string)
    (word_ts : bool) (c : string) (cmd : list string) (p : completed)
    (st : state) :
  returncode p <> 0 ->
  transcribe_respond sys (candidates cfg) out_prefix word_ts
    (Some (c, cmd, Some p, None)) st
  = Ok (Response 500
          (JObj [ ("error", JStr "whisper.cpp failed");
                  ("exit_code", JInt (returncode p));
                  ("stderr_tail", JStr (Text.slice_from (-2000) (stderr p)));
                  ("stdout_tail", JStr (Text.slice_from (-2000) (stdout p)));
                  ("cmd", JStr (Text.join_with " " cmd));
                  ("tried_bins", strs (candidates cfg));
                  ("used_bin", JStr c) ])).
Proof.
  intros Hrc. unfold transcribe_respond.
  assert (Hnz : negb (returncode p =? 0) = true)
    by (apply negb_true_iff, Z.eqb_neq, Hrc).
  rewrite Hnz. reflexivity.
Qed.

(** C8: of the calls a request makes, take one whose process ran and
    exited with a non-zero code.  It is the call for the candidate at
    its position.  If "deprecated" occurs, letter case aside, in its
    stdout followed by its stderr, the next candidate, when there is
    one, is run after it.  If it does not occur, no further call is
    made.  And whenever no further call is made, the request is
    answered with the 500 "whisper.cpp failed" that carries the exit
    code, the output tails and the command of that run. *)
Theorem C8_deprecated_retry (sys : system) (cfg : config) (MODEL_PATH : string)
    (req : form) (st : state) :
  let cmd_of := request_cmd sys cfg MODEL_PATH req st in
  let final := transcribe sys cfg MODEL_PATH req st in
  exists new,
    spawned (snd final) = spawned st ++ new
    /\ forall (i : nat) (cmd : list string) (p : completed),
         new !! i = Some (cmd, Ran p) ->
         returncode p <> 0 ->
         exists c,
           candidates cfg !! i = Some c
           /\ cmd = cmd_of c
           /\ (Text.contains "deprecated"
                 (Text.lower (stdout p +:+ stderr p)) = true ->
               forall c', candidates cfg !! S i = Some c' ->
                 exists k, new !! S i = Some (cmd_of c', k))
           /\ (Text.contains "deprecated"
                 (Text.lower (stdout p +:+ stderr p)) = false ->
               length new = S i)
           /\ (length new = S i ->
               fst final
               = Ok (Response 500
                       (JObj [ ("error", JStr "whisper.cpp failed");
                               ("exit_code", JInt (returncode p));
                               ("stderr_tail",
                                JStr (Text.slice_from (-2000) (stderr p)));
                               ("stdout_tail",
                                JStr (Text.slice_from (-2000) (stdout p)));
                               ("cmd", JStr (Text.join_with " " cmd));
                               ("tried_bins", strs (candidates cfg));
                               ("used_bin", JStr c) ]))).
Proof.
  cbv zeta.
  destruct (transcribe_log sys cfg MODEL_PATH req st)
    as (pre & c0 & k0 & Hlog & Hat & Hpre & Hmap & Hstop & Hres).
  cbv zeta in *.
  set (cmd_of := request_cmd sys cfg MODEL_PATH req st) in *.
  exists (pre ++ [(cmd_of c0, k0)]). split; [exact Hlog |].
  intros i cmd p Hi Hrc.
  destruct (logged_command cmd_of (candidates cfg) _ _ i cmd (Ran p) Hmap Hi)
    as (c & Hc & ->).
  exists c. split; [exact Hc |]. split; [reflexivity |].
  assert (Hdep : deprecation_failure p
                 = Text.contains "deprecated"
                     (Text.lower (stdout p +:+ stderr p))).
  { unfold deprecation_failure. rewrite lower_append.
    assert (Hnz : negb (returncode p =? 0) = true)
      by (apply negb_true_iff, Z.eqb_neq, Hrc).
    now rewrite Hnz. }
  rewrite <- Hdep. rewrite length_app. cbn [length].
  destruct (decide (i < length pre)%nat) as [Hlt | Hge].
  - rewrite lookup_app_l in Hi by exact Hlt.
    rewrite Forall_forall in Hpre.
    assert (Hp : passes (Ran p) = true)
      by (apply (Hpre (cmd_of c, Ran p)); eapply list_elem_of_lookup_2;
          exact Hi).
    cbn [passes] in Hp. rewrite Hp.
    split; [| split; [discriminate | lia]].
    intros _ c' Hc'.
    destruct ((pre ++ [(cmd_of c0, k0)]) !! S i) as [[cmd' k']|] eqn:Hnext.
    + destruct (logged_command cmd_of (candidates cfg) _ _ (S i) cmd' k'
                  Hmap Hnext) as (c'' & Hc'' & ->).
      exists k'. congruence.
    + apply lookup_ge_None in Hnext. rewrite length_app in Hnext.
      cbn [length] in Hnext. lia.
  - assert (Hlen : (i < length (pre ++ [(cmd_of c0, k0)]))%nat)
      by (apply lookup_lt_is_Some; eauto).
    rewrite length_app in Hlen. cbn [length] in Hlen.
    assert (i = length pre) as -> by lia.
    rewrite lookup_app_r, Nat.sub_diag in Hi by exact (Nat.le_refl _).
    injection Hi as Hcmd ->.
    assert (c0 = c) as -> by congruence.
    split; [| split; [intros _; lia |]].
    + intros Hd c' Hc'. apply lookup_lt_Some in Hc'.
      cbn [candidates length] in Hc'.
      specialize (Hstop ltac:(lia)). cbn [passes] in Hstop. congruence.
    + intros _. rewrite Hres. cbn [attempt_of]. now apply respond_failed.
Qed.

(** C8 at work: after the deprecation notice of [main] the handler runs
    [whisper-cli], whose plain failure ends the loop and is reported. *)
Lemma C8_deprecated_retry_witness :
  fst (transcribe legacy_system legacy_config sample_model_path
         sample_request empty_state)
  = Ok (Response 500
          (JObj [ ("error", JStr "whisper.cpp failed");
                  ("exit_code", JInt 1);
                  ("stderr_tail", JStr "error: failed to read audio");
                  ("stdout_tail", JStr "");
                  ("cmd",
                   JStr ("whisper-cli -m /models/ggml-base.en.bin "
                         +:+ "-f /tmp/tmpk3xa.mp3 -oj -osrt "
                         +:+ "-of /tmp/tmpk3xb/out -t 4 -bs 5"));
                  ("tried_bins", strs ["main"; "whisper-cli"; "whisper"]);
                  ("used_bin", JStr "whisper-cli") ])).
Proof.
  destruct (C8_deprecated_retry legacy_system legacy_config sample_model_path
              sample_request empty_state) as (new & Hlog & H).
  vm_compute in Hlog. subst new.
  destruct (H 1%nat _ _ eq_refl ltac:(discriminate))
    as (c & Hc & _ & _ & _ & Hres).
  injection Hc as <-.
  exact (Hres eq_refl).
Defined.

(** ** C10: the input file is unlinked *)



(** ** Reading the output files *)

Lemma get_obj (fields : list (string * json)) (key : string) (default : json) :
  Py.get (JObj fields) key default = Ok (field_or fields key default).
Proof. reflexivity. Qed.

Lemma get_ok (d : json) (key : string) (default v : json) :
  Py.get d key default = Ok v ->
  exists fields, d = JObj fields /\ v = field_or fields key default.
Proof.
  destruct d; try discriminate. intros [= <-]. eauto.
Qed.

Lemma strip_ok (v w : json) :
  Py.strip v = Ok w -> exists s, v = JStr s /\ w = JStr (Text.strip s).
Proof.
  destruct v; try discriminate. intros [= <-]. eauto.
Qed.

Lemma bind_ok {A B : Type} (r : result A) (k : A -> result B) (b : B) :
  mbind k r = Ok b -> exists a, r = Ok a /\ k a = Ok b.
Proof. destruct r as [a|e]; [eauto | discriminate]. Qed.

Lemma bind_raise {A B : Type} (r : result A) (k : A -> result B) (e : exn) :
  mbind k r = Raise e -> r = Raise e \/ exists a, r = Ok a /\ k a = Raise e.
Proof. destruct r as [a|e']; [eauto | intros [= ->]; auto]. Qed.

(** [JSONResponse] returns exactly on content that can be rendered. *)
Lemma JSONResponse_ok (code : Z) (c : json) (resp : response) :
  JSONResponse code c = Ok resp ->
  resp = Response code c /\ Py.compliant c = true.
Proof.
  unfold JSONResponse. destruct (Py.compliant c); [| discriminate].
  intros [= <-]. auto.
Qed.

Lemma read_text_ok (path : string) (st : state) (text : string) :
  read_text path st = Ok text <-> files st !! path = Some (File (Utf8 text)).
Proof.
  unfold read_text.
  destruct (files st !! path) as [[|[t|b]]|]; split; try discriminate;
    now intros [= ->].
Qed.


Lemma load_json_ok (sys : system) (path : string) (st : state) (v : json) :
  load_json sys path st = Ok v ->
  exists raw, files st !! path = Some (File (Utf8 raw))
              /\ json_loads sys raw = Some v.
Proof.
  unfold load_json. intros H. apply bind_ok in H as (raw & Hr & H).
  apply read_text_ok in Hr. exists raw. split; [exact Hr |].
  destruct (json_loads sys raw); [now injection H as -> | discriminate].
Qed.

Lemma segment_of_ok (s seg : json) :
  segment_of s = Ok seg ->
  timed_segment s seg /\ Py.compliant seg = segment_compliant s.
Proof.
  unfold segment_of. intros H.
  apply bind_ok in H as (v1 & H1 & H). apply get_ok in H1 as (fields & -> & ->).
  rewrite !get_obj in H. cbn [mbind result_bind] in H.
  apply bind_ok in H as (w & Hw & [= <-]).
  apply strip_ok in Hw as (text & Ht & ->).
  split; [exists fields, text; auto |].
  cbn [Py.compliant segment_compliant forallb snd].
  now rewrite !andb_true_r.
Qed.

Lemma comprehension_ok (l segs : list json) :
  Py.comprehension segment_of l = Ok segs ->
  Forall2 timed_segment l segs
  /\ forallb Py.compliant segs = forallb segment_compliant l.
Proof.
  revert segs. induction l as [|s l IH]; intros segs; cbn [Py.comprehension].
  - intros [= <-]. split; [constructor | reflexivity].
  - intros H. apply bind_ok in H as (seg & Hs & H).
    apply bind_ok in H as (rest & Hr & [= <-]).
    apply segment_of_ok in Hs as [Hs Hc]. apply IH in Hr as [Hr Hcs].
    split; [now constructor |]. cbn [forallb]. now rewrite Hc, Hcs.
Qed.

Lemma strip_text_total (fields : list (string * json)) :
  (text_ok fields = true ->
   exists t, Py.strip (field_or fields "text" (JStr "")) = Ok (JStr t))
  /\ (text_ok fields = false ->
      exists e, Py.strip (field_or fields "text" (JStr "")) = Raise e).
Proof.
  unfold text_ok, field_or.
  destruct (Py.items_get "text" fields) as [[]|]; cbn;
    split; intros H; try discriminate H; eauto.
Qed.

Lemma segment_of_total (s : json) :
  (segment_shaped s = true -> exists seg, segment_of s = Ok seg)
  /\ (segment_shaped s = false -> exists e, segment_of s = Raise e).
Proof.
  destruct s as [| | | | | |fields]; cbn [segment_shaped];
    try (split; intros H; [discriminate H | eexists; reflexivity]).
  unfold segment_of. rewrite !get_obj. cbn [mbind result_bind].
  destruct (strip_text_total fields) as [Hy Hn].
  split; intros H.
  - destruct (Hy H) as [t ->]. eexists; reflexivity.
  - destruct (Hn H) as [e ->]. eexists; reflexivity.
Qed.

Lemma comprehension_total (l : list json) :
  (forallb segment_shaped l = true ->
   exists segs, Py.comprehension segment_of l = Ok segs)
  /\ (forallb segment_shaped l = false ->
      exists e, Py.comprehension segment_of l = Raise e).
Proof.
  induction l as [|s l [IHy IHn]]; cbn [forallb Py.comprehension].
  - split; [eexists; reflexivity | discriminate].
  - destruct (segment_of_total s) as [Hy Hn].
    destruct (segment_shaped s); cbn [andb].
    + destruct (Hy eq_refl) as [seg ->]. cbn [mbind result_bind].
      split; intros H.
      * destruct (IHy H) as [segs ->]. eexists; reflexivity.
      * destruct (IHn H) as [e ->]. eexists; reflexivity.
    + destruct (Hn eq_refl) as [e ->].
      split; [discriminate | eexists; reflexivity].
Qed.

(** What a response of [transcription] is made of. *)
Lemma transcription_ok (data srt wts : json) (candidate : string)
    (resp : response) :
  transcription data srt wts candidate = Ok resp ->
  exists fields text items segs,
    data = JObj fields
    /\ field_or fields "text" (JStr "") = JStr text
    /\ Py.iter (field_or fields "segments" (JArr [])) = Ok items
    /\ Forall2 timed_segment items segs
    /\ resp = Response 200
               (JObj [ ("language", field_or fields "language" JNull);
                       ("duration", field_or fields "duration" JNull);
                       ("text", JStr (Text.strip text));
                       ("segments", JArr segs);
                       ("srt", srt);
                       ("word_timestamps", wts);
                       ("used_bin", JStr candidate) ]).
Proof.
  unfold transcription. intros H.
  apply bind_ok in H as (v & Hv & H). apply get_ok in Hv as (fields & -> & ->).
  rewrite !get_obj in H. cbn [mbind result_bind] in H.
  apply bind_ok in H as (w & Hw & H).
  apply strip_ok in Hw as (text & Ht & ->).
  apply bind_ok in H as (items & Hi & H).
  apply bind_ok in H as (segs & Hs & H).
  apply JSONResponse_ok in H as [-> _].
  apply comprehension_ok in Hs as [Hs _].
  exists fields, text, items, segs. auto.
Qed.



(** What a success response is made of. *)
Lemma success_ok (sys : system) (candidate out_prefix : string)
    (word_ts : bool) (st : state) (resp : response) (tried : list string) :
  In candidate tried ->
  transcribe_success sys candidate out_prefix word_ts st = Ok resp ->
  parsed_from_outputs sys tried out_prefix word_ts st resp
  /\ status_code resp = 200
  /\ has_error_field resp = false.
Proof.
  unfold transcribe_success. intros Hin H.
  apply bind_ok in H as (data & Hd & H).
  apply load_json_ok in Hd as (raw & Hraw & Hdata).
  apply bind_ok in H as (srt & Hsrt & H).
  apply bind_ok in H as (wts & Hwts & H).
  apply transcription_ok in H
    as (fields & text & items & segs & -> & Ht & Hi & Hs & ->).
  split; [| split; reflexivity].
  exists raw, fields, text, items, segs, srt, wts, candidate.
  split; [exact Hin |]. split; [exact Hraw |]. split; [exact Hdata |].
  split; [exact Ht |]. split; [exact Hi |]. split; [exact Hs |].
  split; [| split; [| reflexivity]].
  - unfold path_exists, read_text in Hsrt.
    destruct (files st !! (out_prefix +:+ ".srt")) as [[|[t|b]]|];
      cbn [mbind result_bind] in Hsrt; try discriminate Hsrt;
      now injection Hsrt as <-.
  - destruct word_ts; [| now injection Hwts as <-].
    unfold path_exists in Hwts.
    destruct (files st !! (out_prefix +:+ ".wts.json")) as [n|] eqn:En;
      [| now injection Hwts as <-].
    apply load_json_ok in Hwts as (rawW & HrawW & Hw).
    rewrite En in HrawW. injection HrawW as ->. exact Hw.
Qed.

Lemma last_ran_snoc (pre : list entry) (e : entry) :
  last_ran (pre ++ [e])
  = match snd e with Ran p => Some p | _ => last_ran pre end.
Proof.
  induction pre as [|x pre IH]; cbn [app last_ran].
  - now destruct (snd e).
  - rewrite IH. destruct (snd e); try reflexivity;
      now destruct (last_ran pre).
Qed.

Lemma last_ran_passed (pre : list entry) (p : completed) :
  Forall (fun x : entry => passes (snd x) = true) pre ->
  last_ran pre = Some p -> returncode p <> 0.
Proof.
  induction 1 as [|x pre Hx _ IH]; cbn [last_ran]; [discriminate |].
  destruct (last_ran pre) as [q|]; [exact IH |].
  destruct (snd x) as [q| |e]; try discriminate. intros [= ->].
  cbn [passes] in Hx. unfold deprecation_failure in Hx.
  apply andb_true_iff in Hx as [Hx _].
  now apply negb_true_iff, Z.eqb_neq in Hx.
Qed.

Lemma last_ran_none (pre : list entry) :
  Forall (fun x : entry => passes (snd x) = true) pre ->
  last_ran pre = None -> none_executed pre.
Proof.
  unfold none_executed.
  induction 1 as [|x pre Hx _ IH]; cbn [last_ran]; [constructor |].
  destruct (last_ran pre); [discriminate |]. intros H.
  constructor; [| auto].
  destruct (snd x); [discriminate H | reflexivity | discriminate Hx].
Qed.

(** An error response whose strings come from the process and the
    candidates can always be rendered. *)
Lemma respond_missing (sys : system) (cfg : config) (out_prefix : string)
    (word_ts : bool) (c : string) (cmd : list string)
    (proc : option completed) (e : exn) (st : state) :
  transcribe_respond sys (candidates cfg) out_prefix word_ts
    (Some (c, cmd, proc, Some e)) st
  = Ok (Response 500
          (JObj [ ("error",
                   JStr ("whisper binary not found (tried "
                         +:+ Text.repr_list (candidates cfg) +:+ ")")) ])).
Proof. reflexivity. Qed.

(** The response of a request whose loop ended without an exception, by
    the kind of its last call. *)
Lemma respond_cases (sys : system) (cfg : config) (MODEL_PATH : string)
    (req : form) (st : state) :
  let out_prefix := output_prefix sys (file req) st in
  let r := fst (transcribe sys cfg MODEL_PATH req st) in
  let st' := snd (transcribe sys cfg MODEL_PATH req st) in
  exists new,
    spawned st' = spawned st ++ new
    /\ ((exists cmd e, last new = Some (cmd, Failed e)
                       /\ r = Raise (run_error_exn e))
        \/ ((forall cmd e, last new <> Some (cmd, Failed e))
            /\ ((error_500 r /\ failure_case sys req st new st')
                \/ (~ failure_case sys req st new st'
                    /\ exists used,
                         In used (candidates cfg)
                         /\ r = transcribe_success sys used out_prefix
                                  (word_ts req) st')))).
Proof.
  cbv zeta.
  destruct (transcribe_log sys cfg MODEL_PATH req st)
    as (pre & c & k & Hlog & Hat & Hpre & _ & _ & Hres).
  cbv zeta in *.
  set (cmd_of := request_cmd sys cfg MODEL_PATH req st) in *.
  exists (pre ++ [(cmd_of c, k)]). split; [exact Hlog |].
  rewrite last_snoc.
  assert (Hin : In c (candidates cfg)).
  { apply list_elem_of_In. eapply list_elem_of_lookup_2. exact Hat. }
  unfold failure_case, json_missing.
  destruct k as [p| |e].
  - right. split; [intros cmd e; discriminate |].
    rewrite Hres. cbn [attempt_of transcribe_respond].
    destruct (returncode p =? 0) eqn:Hrc; cbn [negb].
    + destruct (path_exists _ _) eqn:Hj; cbn [negb].
      * right. split; [| eauto].
        intros [H | [(q & Hq & Hnz) | H]]; [| | discriminate H].
        -- apply Forall_app in H as [_ H]. inversion H as [|? ? He _].
           discriminate He.
        -- rewrite last_ran_snoc in Hq. injection Hq as <-.
           now apply Z.eqb_eq in Hrc.
      * left. split; [| auto].
        eexists. split; [reflexivity |]. split; reflexivity.
    + left. split.
      * apply Z.eqb_neq in Hrc.
        pose proof (respond_failed sys cfg (output_prefix sys (file req) st)
                      (word_ts req) c (cmd_of c) p
                      (snd (transcribe sys cfg MODEL_PATH req st)) Hrc) as Hr.
        unfold transcribe_respond in Hr.
        rewrite (proj2 (Z.eqb_neq _ _) Hrc) in Hr. cbn [negb] in Hr.
        rewrite Hr.
        eexists. split; [reflexivity |]. split; reflexivity.
      * right; left. exists p. rewrite last_ran_snoc.
        split; [reflexivity | now apply Z.eqb_neq].
  - right. split; [intros cmd e; discriminate |].
    rewrite Hres. unfold attempt_of. rewrite respond_missing.
    left. split.
    + eexists. split; [reflexivity |]. split; reflexivity.
    + destruct (last_ran pre) as [q|] eqn:Hq.
      * right; left. exists q. rewrite last_ran_snoc. cbn [snd].
        split; [exact Hq | now apply (last_ran_passed pre)].
      * left. apply Forall_app. split; [now apply last_ran_none |].
        repeat constructor.
  - left. exists (cmd_of c), e. split; [reflexivity | exact Hres].
Qed.

(** ** C3: failures and responses *)




(** ** C4: the success response *)

(** C4: when the handler returns a 200 response, that response is parsed
    from the binary's output files: the JSON output file was decoded and
    gives the language, the duration, the stripped text and the segments
    (start, end, stripped text); [srt] is the text of the subtitle file
    if that file is there and null if not; [word_timestamps] is the
    decoded word-timestamp file if word timestamps were requested and
    that file is there, and null otherwise, so that file is parsed only
    on request. *)
Theorem C4_success_response (sys : system) (cfg : config) (MODEL_PATH : string)
    (req : form) (st : state) (resp : response) :
  fst (transcribe sys cfg MODEL_PATH req st) = Ok resp ->
  status_code resp = 200 ->
  parsed_from_outputs sys (candidates cfg)
    (output_prefix sys (file req) st) (word_ts req)
    (snd (transcribe sys cfg MODEL_PATH req st)) resp.
Proof.
  intros Hresp H200.
  destruct (respond_cases sys cfg MODEL_PATH req st) as (new & _ & Hcases).
  cbv zeta in Hcases.
  destruct Hcases
    as [(cmd & e & _ & Hr)
       | [_ [[(resp' & Hr & H500 & _) _] | [_ (used & Hin & Hr)]]]].
  - rewrite Hresp in Hr. discriminate Hr.
  - rewrite Hresp in Hr. injection Hr as <-. rewrite H200 in H500.
    discriminate H500.
  - rewrite Hresp in Hr. symmetry in Hr.
    now apply (success_ok _ _ _ _ _ _ _ Hin) in Hr as (Hparsed & _).
Qed.

(** C4 at work, on a request for word timestamps answered by a binary
    that writes all three files. *)
Lemma C4_success_response_witness :
  exists resp,
    fst (transcribe timing_system default_config sample_model_path
           timed_request empty_state) = Ok resp
    /\ content resp
       = JObj [ ("language", JNull); ("duration", JNull);
                ("text", JStr "hello");
                ("segments",
                 JArr [ JObj [ ("start", JInt 0); ("end", JInt 2);
                               ("text", JStr "hello") ] ]);
                ("srt", JStr "1 hello");
                ("word_timestamps", JArr [JInt 1]);
                ("used_bin", JStr "whisper-cli") ]
    /\ parsed_from_outputs timing_system (candidates default_config)
         (output_prefix timing_system (file timed_request) empty_state)
         (word_ts timed_request)
         (snd (transcribe timing_system default_config sample_model_path
                 timed_request empty_state)) resp.
Proof.
  eexists. split; [vm_compute; reflexivity |].
  split; [reflexivity |].
  apply (C4_success_response timing_system default_config sample_model_path
           timed_request empty_state); reflexivity.
Defined.

Lemma get_raises (d : json) (key : string) (default : json) (e : exn) :
  Py.get d key default = Raise e -> e = AttributeError.
Proof. destruct d; cbn; congruence. Qed.

Lemma strip_raises (v : json) (e : exn) :
  Py.strip v = Raise e -> e = AttributeError.
Proof. destruct v; cbn; congruence. Qed.

Lemma iter_raises (v : json) (e : exn) :
  Py.iter v = Raise e -> e = TypeError.
Proof. destruct v; cbn; congruence. Qed.

Ltac raise_cases H :=
  repeat (apply bind_raise in H as [H | (? & _ & H)];
          [first [ now apply get_raises in H
                 | now apply strip_raises in H
                 | apply iter_raises in H; now subst
                 | idtac ] |]).

Lemma segment_of_raises (s : json) (e : exn) :
  segment_of s = Raise e -> e = AttributeError.
Proof. unfold segment_of. intros H. raise_cases H. discriminate H. Qed.

Lemma comprehension_raises (l : list json) (e : exn) :
  Py.comprehension segment_of l = Raise e -> e = AttributeError.
Proof.
  induction l as [|s l IH]; cbn [Py.comprehension]; [discriminate |].
  intros H. apply bind_raise in H as [H | (? & _ & H)];
    [now apply segment_of_raises in H |].
  apply bind_raise in H as [H | (? & _ & H)]; [auto | discriminate H].
Qed.

(** ** Responses, further *)

(** A duration such as [1e999], which [json.load] reads as infinity,
    reaches [JSONResponse] and makes it raise. *)
Example nonfinite_duration_raises :
  transcription (JObj [("duration", JFloat PosInf)]) JNull JNull "whisper-cli"
  = Raise (ValueError "Out of range float values are not JSON compliant").
Proof. reflexivity. Qed.

(** A subtitle file that is not UTF-8 makes the handler raise. *)
Example undecodable_subtitles_raise :
  transcribe_success working_system "whisper-cli" "/tmp/d/out" false
    (with_files (<["/tmp/d/out.srt" := File (Binary "1 hello")]>
                   (<["/tmp/d/out.json" := File (Utf8 "{}")]> ∅))
       empty_state)
  = Raise UnicodeDecodeError.
Proof. reflexivity. Qed.



(** X14: the decoded JSON output must have the shape the handler reads,
    or building the response raises: an output that is not an object, or
    whose text is present but not a string, raises [AttributeError]; with
    the text in order, segments that cannot be iterated (null, a number,
    a boolean) raise [TypeError], and a segment that is not an object
    raises [AttributeError]. *)
Theorem misshapen_output_raises (fields : list (string * json))
    (srt wts : json) (candidate : string) :
  (forall data, (forall fs, data <> JObj fs) ->
     transcription data srt wts candidate = Raise AttributeError)
  /\ (forall v,
        Py.items_get "text" fields = Some v ->
        (forall s, v <> JStr s) ->
        transcription (JObj fields) srt wts candidate = Raise AttributeError)
  /\ (forall v,
        text_ok fields = true ->
        Py.items_get "segments" fields = Some v ->
        Py.iter v = Raise TypeError ->
        transcription (JObj fields) srt wts candidate = Raise TypeError)
  /\ (forall v items,
        text_ok fields = true ->
        Py.items_get "segments" fields = Some v ->
        Py.iter v = Ok items ->
        forallb segment_shaped items = false ->
        transcription (JObj fields) srt wts candidate = Raise AttributeError).
Proof.
  assert (Htext : text_ok fields = true ->
            exists t,
              transcription (JObj fields) srt wts candidate
              = (d_segments ← Py.iter (field_or fields "segments" (JArr []));
                 segments ← Py.comprehension segment_of d_segments;
                 JSONResponse_default
                   (JObj [ ("language", field_or fields "language" JNull);
                           ("duration", field_or fields "duration" JNull);
                           ("text", JStr t);
                           ("segments", JArr segments);
                           ("srt", srt);
                           ("word_timestamps", wts);
                           ("used_bin", JStr candidate) ]))).
  { intros Ht. destruct (strip_text_total fields) as [Hy _].
    destruct (Hy Ht) as [t Hs]. exists t.
    unfold transcription. rewrite !get_obj. cbn [mbind result_bind].
    rewrite Hs. reflexivity. }
  assert (Hseg : forall v, Py.items_get "segments" fields = Some v ->
                           field_or fields "segments" (JArr []) = v)
    by (intros v Hv; unfold field_or; now rewrite Hv).
  split; [| split; [| split]].
  - intros data H. destruct data; try reflexivity. now contradiction (H fields0).
  - intros v Hv Hns. unfold transcription.
    rewrite !get_obj. cbn [mbind result_bind]. unfold field_or.
    rewrite Hv. destruct v; try reflexivity. now contradiction (Hns s).
  - intros v Ht Hv Hiter. destruct (Htext Ht) as [t ->].
    rewrite (Hseg v Hv), Hiter. reflexivity.
  - intros v items Ht Hv Hiter Hbad. destruct (Htext Ht) as [t ->].
    rewrite (Hseg v Hv), Hiter. cbn [mbind result_bind].
    destruct (comprehension_total items) as [_ Hn].
    destruct (Hn Hbad) as [e He]. rewrite He.
    apply comprehension_raises in He as ->. reflexivity.
Qed.

Lemma misshapen_output_raises_witness :
  transcription (JObj [("text", JNull)]) JNull JNull "whisper-cli"
  = Raise AttributeError
  /\ transcription (JObj [("segments", JNull)]) JNull JNull "whisper-cli"
     = Raise TypeError
  /\ transcription (JObj [("segments", JArr [JStr "hello"])]) JNull JNull
       "whisper-cli"
     = Raise AttributeError.
Proof.
  destruct (misshapen_output_raises [("text", JNull)] JNull JNull
              "whisper-cli") as (_ & H1 & _).
  destruct (misshapen_output_raises [("segments", JNull)] JNull JNull
              "whisper-cli") as (_ & _ & H2 & _).
  destruct (misshapen_output_raises [("segments", JArr [JStr "hello"])]
              JNull JNull "whisper-cli") as (_ & _ & _ & H3).
  split; [| split].
  - apply (H1 JNull); [reflexivity | discriminate].
  - apply (H2 JNull); reflexivity.
  - apply (H3 (JArr [JStr "hello"]) [JStr "hello"]); reflexivity.
Defined.



(** ** Particular runs of the handler *)










(** ** C9: the suffix of the temporary file *)















